(** * Native messaging host of the ChatGPT API bridge (http-server-host.py)

    A shallow embedding of the framed channel codec, of the control
    dispatcher, of the HTTP front door and of the two threads that read
    the shared standard input, followed by the properties that the
    specification states about them. *)

From Stdlib Require Import NArith ZArith Lia.
From Stdlib Require Import Strings.String Strings.Ascii Strings.Byte DecimalString.
From stdpp Require Import base list.

Local Open Scope N_scope.

(** ** Python values *)

(** A Python [str] is a sequence of code points; [bytes] a sequence of
    octets. *)
Definition codepoint := N.
Definition str := list codepoint.
Definition bytes := list byte.

(** A literal of the source, written as a Rocq string. *)
Definition lit (s : string) : str :=
  List.map N_of_ascii (list_ascii_of_string s).

#[local] Set Warnings "-register-all".

(** The values [json.loads] produces and [json.dumps] consumes.  A dict
    keeps its insertion order; a float keeps the text it was read from. *)
Inductive json :=
| JNone
| JBool (b : bool)
| JInt (z : Z)
| JFloat (text : str)
| JStr (s : str)
| JList (l : list json)
| JDict (d : list (str * json)).

(** The exceptions that the code raises or receives from the library
    functions it calls, each with the value that caused it. *)
Inductive exn :=
| Exception (msg : str)
| StructError (n : N)
| UnicodeDecodeError (input : bytes)
| UnicodeEncodeError (input : str)
| JSONDecodeError (input : str)
| AttributeError (obj : json)
| TypeError (obj : json)
| ValueError (input : str)
| NegativeLength (n : Z)
| TooLarge (n : Z).

(** Outcome of a computation that may raise. *)
Inductive result (A : Type) :=
| Ok (a : A)
| Raise (e : exn).
Arguments Ok {A} a.
Arguments Raise {A} e.

Instance codepoint_eq_dec : EqDecision codepoint := N.eq_dec.

(** [d.get(key, default)] on a dict. *)
Fixpoint dict_get (d : list (str * json)) (key : str) (default : json) : json :=
  match d with
  | [] => default
  | (k, v) :: d' => if decide (k = key) then v else dict_get d' key default
  end.

(** [obj.get(key, default)]: only a dict has the method. *)
Definition py_get (obj : json) (key : str) (default : json) : result json :=
  match obj with
  | JDict d => Ok (dict_get d key default)
  | _ => Raise (AttributeError obj)
  end.

(** ** Octets *)

Definition byte_of_N (n : N) : byte :=
  match Byte.of_N (n mod 256) with
  | Some b => b
  | None => x00
  end.

(** ** struct.pack('@I', n) and struct.unpack('@I', b)

    [@] is the byte order of the machine the host runs on. *)
Inductive byteorder := LittleEndian | BigEndian.

Definition pack_I (order : byteorder) (n : N) : result bytes :=
  if n <? 2 ^ 32 then
    let b0 := byte_of_N n in
    let b1 := byte_of_N (n / 2 ^ 8) in
    let b2 := byte_of_N (n / 2 ^ 16) in
    let b3 := byte_of_N (n / 2 ^ 24) in
    Ok (match order with
        | LittleEndian => [b0; b1; b2; b3]
        | BigEndian => [b3; b2; b1; b0]
        end)
  else Raise (StructError n).

(** Only called by the source on exactly four octets. *)
Definition unpack_I (order : byteorder) (b : bytes) : N :=
  match b with
  | [x0; x1; x2; x3] =>
      match order with
      | LittleEndian =>
          Byte.to_N x0 + 2 ^ 8 * Byte.to_N x1 + 2 ^ 16 * Byte.to_N x2
          + 2 ^ 24 * Byte.to_N x3
      | BigEndian =>
          Byte.to_N x3 + 2 ^ 8 * Byte.to_N x2 + 2 ^ 16 * Byte.to_N x1
          + 2 ^ 24 * Byte.to_N x0
      end
  | _ => 0
  end.

(** ** The UTF-8 codec: str.encode('utf-8') and bytes.decode('utf-8', errors) *)

Definition encode_char (c : codepoint) : option bytes :=
  if c <? 0x80 then Some [byte_of_N c]
  else if c <? 0x800 then
    Some [byte_of_N (0xC0 + c / 64); byte_of_N (0x80 + c mod 64)]
  else if c <? 0x10000 then
    if (0xD800 <=? c) && (c <? 0xE000) then None
    else Some [byte_of_N (0xE0 + c / 4096);
               byte_of_N (0x80 + (c / 64) mod 64);
               byte_of_N (0x80 + c mod 64)]
  else if c <? 0x110000 then
    Some [byte_of_N (0xF0 + c / 262144);
          byte_of_N (0x80 + (c / 4096) mod 64);
          byte_of_N (0x80 + (c / 64) mod 64);
          byte_of_N (0x80 + c mod 64)]
  else None.

Fixpoint encode_chars (s : str) : option bytes :=
  match s with
  | [] => Some []
  | c :: s' =>
      match encode_char c, encode_chars s' with
      | Some b, Some bs => Some (b ++ bs)
      | _, _ => None
      end
  end.

(** [s.encode('utf-8')]: a lone surrogate cannot be encoded. *)
Definition utf8_encode (s : str) : result bytes :=
  match encode_chars s with
  | Some b => Ok b
  | None => Raise (UnicodeEncodeError s)
  end.

(** The decoder reads one octet at a time.  Between characters it is in
    [DStart]; inside a multi-octet character it waits for a continuation
    octet in the range [lo..hi], after which [need] more are due. *)
Inductive dstate :=
| DStart
| DCont (need : nat) (acc : N) (lo hi : N).

Inductive dstep :=
| SChar (c : codepoint)
| SMore (st : dstate)
| SInvalid.

(** What a first octet announces. *)
Definition start_byte (b : N) : dstep :=
  if b <? 0x80 then SChar b
  else if b <? 0xC2 then SInvalid
  else if b <? 0xE0 then SMore (DCont 0 (b - 0xC0) 0x80 0xBF)
  else if b =? 0xE0 then SMore (DCont 1 0 0xA0 0xBF)
  else if b =? 0xED then SMore (DCont 1 (b - 0xE0) 0x80 0x9F)
  else if b <? 0xF0 then SMore (DCont 1 (b - 0xE0) 0x80 0xBF)
  else if b =? 0xF0 then SMore (DCont 2 0 0x90 0xBF)
  else if b <? 0xF4 then SMore (DCont 2 (b - 0xF0) 0x80 0xBF)
  else if b =? 0xF4 then SMore (DCont 2 (b - 0xF0) 0x80 0x8F)
  else SInvalid.

(** The [errors] argument of [decode]. *)
Inductive errors := Strict | Ignore.

(** [decode_from h st bs]: [None] is the UnicodeDecodeError of the
    strict handler; with [Ignore] the octets of a broken sequence are
    skipped and the octet that broke it is examined again as a first
    octet. *)
Fixpoint decode_from (h : errors) (st : dstate) (bs : bytes) : option str :=
  match bs with
  | [] =>
      match st, h with
      | DStart, _ => Some []
      | DCont _ _ _ _, Strict => None
      | DCont _ _ _ _, Ignore => Some []
      end
  | b :: rest =>
      let fresh :=
        match start_byte (Byte.to_N b) with
        | SChar c => cons c <$> decode_from h DStart rest
        | SMore st' => decode_from h st' rest
        | SInvalid =>
            match h with
            | Strict => None
            | Ignore => decode_from h DStart rest
            end
        end in
      match st with
      | DStart => fresh
      | DCont need acc lo hi =>
          if (lo <=? Byte.to_N b) && (Byte.to_N b <=? hi) then
            let acc' := acc * 64 + (Byte.to_N b - 0x80) in
            match need with
            | O => cons acc' <$> decode_from h DStart rest
            | S need' => decode_from h (DCont need' acc' 0x80 0xBF) rest
            end
          else
            match h with
            | Strict => None
            | Ignore => fresh
            end
      end
  end.

(** [b.decode('utf-8')] *)
Definition utf8_decode (b : bytes) : result str :=
  match decode_from Strict DStart b with
  | Some s => Ok s
  | None => Raise (UnicodeDecodeError b)
  end.

(** [b.decode('utf-8', errors='ignore')] *)
Definition utf8_decode_ignore (b : bytes) : str :=
  match decode_from Ignore DStart b with
  | Some s => s
  | None => []
  end.

(** The value the decoder reaches from [acc] over continuation octets. *)
Definition accumulate (acc : N) (cs : bytes) : N :=
  fold_left (fun a b => a * 64 + (Byte.to_N b - 0x80)) cs acc.

(** The octets [p] read so far in the current character agree with the
    state: whichever admissible octets complete the character, it
    encodes to [p] followed by them. *)
Definition pending_ok (st : dstate) (p : bytes) : Prop :=
  match st with
  | DStart => p = []
  | DCont need acc lo hi =>
      forall c cs,
        lo <= Byte.to_N c <= hi ->
        Forall (fun b => 0x80 <= Byte.to_N b <= 0xBF) cs ->
        length cs = need ->
        encode_char (accumulate acc (c :: cs)) = Some (p ++ c :: cs)
  end.

(** ** The standard streams

    The input stream is the sequence of octets the peer sends before it
    closes its end.  [stream.read(n)] returns [n] octets, or fewer when
    the end of the stream comes first, and consumes them. *)
Definition stream_read (n : nat) (stdin : bytes) : bytes * bytes :=
  (take n stdin, drop n stdin).

(** The length that the first four octets of the input declare. *)
Definition declared_length (order : byteorder) (input : bytes) : N :=
  unpack_I order (take 4 input).

Record io := { stdin : bytes; stdout : bytes }.

(** A computation on the standard streams that may raise. *)
Definition M (A : Type) := io -> result A * io.

Definition ret {A} (a : A) : M A := fun s => (Ok a, s).
Definition raise {A} (e : exn) : M A := fun s => (Raise e, s).
Definition lift {A} (r : result A) : M A := fun s => (r, s).
Definition bind {A B} (m : M A) (k : A -> M B) : M B :=
  fun s =>
    match m s with
    | (Ok a, s') => k a s'
    | (Raise e, s') => (Raise e, s')
    end.

(** [try: body except Exception as e: handler] *)
Definition try_except {A} (body : M A) (handler : exn -> M A) : M A :=
  fun s =>
    match body s with
    | (Ok a, s') => (Ok a, s')
    | (Raise e, s') => handler e s'
    end.

Notation "'do' x <- m ; k" := (bind m (fun x => k))
  (at level 10, x name, m at level 100, k at level 200,
   format "'[v' 'do'  x  <-  m ; '/' k ']'").

(** [sys.stdin.buffer.read(n)] *)
Definition stdin_read (n : nat) : M bytes :=
  fun s =>
    let (got, rest) := stream_read n (stdin s) in
    (Ok got, {| stdin := rest; stdout := stdout s |}).

(** [sys.stdout.buffer.write(b)] *)
Definition stdout_write (b : bytes) : M unit :=
  fun s => (Ok tt, {| stdin := stdin s; stdout := stdout s ++ b |}).

(** ** Library functions the source calls

    [json.loads], [json.dumps(obj, ensure_ascii=...)], the text [str(e)]
    of an exception raised by a library, and the integer a float formats
    to under [%d] are not part of the repository: the host is embedded
    over any implementation of them.  So are two things of the runtime
    and of [http.server]: the largest number of octets for which
    [read(n)] gets a buffer, and the HTML page that [send_error] makes
    for [501, "Unsupported method (%r)" % command]. *)
Class PyLib := {
  json_loads : str -> result json;
  json_dumps : bool -> json -> str;
  exn_text : exn -> str;
  py_str : json -> str;
  int_of_float : str -> result Z;
  max_read : N;
  unsupported_page : str -> bytes
}.

Section Host.
Context {L : PyLib}.
Variable order : byteorder.

(** [str(e)]: an [Exception(msg)] of the source prints as its message. *)
Definition exn_str (e : exn) : str :=
  match e with
  | Exception msg => msg
  | _ => exn_text e
  end.

(** ** Framed channel *)

(** Lines 106-109 and 217-220: the length prefix, the payload, flush. *)
Definition write_frame (payload : str) : M unit :=
  do encoded <- lift (utf8_encode payload);
  do prefix <- lift (pack_I order (N.of_nat (length encoded)));
  do _ <- stdout_write prefix;
  stdout_write encoded.

(** Lines 112-123: the response frame as [send_to_extension] reads it. *)
Definition read_response : M str :=
  do text_length_bytes <- stdin_read 4;
  if (length text_length_bytes <? 4)%nat then
    raise (Exception (lit "Failed to read response length from extension"))
  else
    let text_length := unpack_I order text_length_bytes in
    do response_bytes <- stdin_read (N.to_nat text_length);
    if (N.of_nat (length response_bytes) <? text_length) then
      raise (Exception (lit "Failed to read complete response from extension"))
    else lift (utf8_decode response_bytes).

(** The value returned by the handler of lines 126-131. *)
Definition communication_error (e : exn) : json :=
  JDict [(lit "status", JInt 503);
         (lit "body",
          JDict [(lit "error",
                  JStr (lit "Extension communication error: " ++ exn_str e))])].

(** The [try] block of [send_to_extension], lines 105-124. *)
Definition exchange (data : json) : M json :=
  do _ <- write_frame (json_dumps true data);
  do response <- read_response;
  lift (json_loads response).

(** [send_to_extension(data)], lines 102-131. *)
Definition send_to_extension (data : json) : M json :=
  try_except (exchange data) (fun e => ret (communication_error e)).

(** Lines 187-198: the message as the control loop reads it.  [None] is
    the [break] of lines 189 and 196. *)
Definition read_message : M (option str) :=
  do text_length_bytes <- stdin_read 4;
  if (length text_length_bytes <? 4)%nat then ret None
  else
    let text_length := unpack_I order text_length_bytes in
    do message_bytes <- stdin_read (N.to_nat text_length);
    if (N.of_nat (length message_bytes) <? text_length) then ret None
    else
      do message <- lift (utf8_decode message_bytes);
      ret (Some message).

(** ** Control dispatcher: class NativeMessagingHost *)

(** The thread object of line 155: the port given to [run_server] and
    what [is_alive()] answers. *)
Record thread := { target_port : json; is_alive : bool }.

(** [launched] is a history of the ports on which a thread has run
    [run_server], that is, of the attempts to bind a listener. *)
Record host := {
  server_thread : option thread;
  running : bool;
  launched : list json
}.

(** [NativeMessagingHost.__init__] *)
Definition new_host : host :=
  {| server_thread := None; running := false; launched := [] |}.

(** What the operating system does with a new thread: [start()] raises,
    or [run_server] fails to bind and the thread exits within the half
    second of line 161, or it serves. *)
Inductive start_outcome := StartRaises | ThreadExits | ThreadServes.

(** The clock of [int(time.time() * 1000)] and the operating system. *)
Record env := { now_ms : Z; spawn : json -> start_outcome }.

(** [start_http_server(self, port)], lines 149-172. *)
Definition start_http_server (e : env) (h : host) (port : json) : host * bool :=
  let fresh :=
    match spawn e port with
    | StartRaises =>
        ({| server_thread := Some {| target_port := port; is_alive := false |};
            running := running h; launched := launched h |}, false)
    | ThreadExits =>
        ({| server_thread := Some {| target_port := port; is_alive := false |};
            running := running h; launched := launched h ++ [port] |}, false)
    | ThreadServes =>
        ({| server_thread := Some {| target_port := port; is_alive := true |};
            running := running h; launched := launched h ++ [port] |}, true)
    end in
  match server_thread h with
  | Some t => if is_alive t then (h, true) else fresh
  | None => fresh
  end.

(** [stop_http_server(self)], lines 174-177: a log line. *)
Definition stop_http_server (h : host) : host := h.

(** An f-string field. *)
Definition format_value (v : json) : str :=
  match v with
  | JStr s => s
  | _ => py_str v
  end.

Definition is_literal (v : json) (s : string) : bool :=
  match v with
  | JStr t => bool_decide (t = lit s)
  | _ => false
  end.

(** [handle_message(self, data)], lines 231-261. *)
Definition handle_message (e : env) (h : host) (data : json)
  : result (host * json) :=
  match py_get data (lit "type") (JStr (lit "")) with
  | Raise ex => Raise ex
  | Ok message_type =>
      if is_literal message_type "start_server" then
        match py_get data (lit "port") (JInt 8765) with
        | Raise ex => Raise ex
        | Ok port =>
            let (h', success) := start_http_server e h port in
            Ok (h', JDict [(lit "type", JStr (lit "server_started"));
                           (lit "success", JBool success);
                           (lit "port", port)])
        end
      else if is_literal message_type "stop_server" then
        Ok (stop_http_server h,
            JDict [(lit "type", JStr (lit "server_stopped"));
                   (lit "success", JBool true)])
      else if is_literal message_type "ping" then
        Ok (h, JDict [(lit "type", JStr (lit "pong"));
                      (lit "timestamp", JInt (now_ms e))])
      else
        Ok (h, JDict [(lit "type", JStr (lit "unknown"));
                      (lit "error",
                       JStr (lit "Unknown message type: "
                             ++ format_value message_type))])
  end.

(** Lines 200-214: the inner [try] of the loop, given what
    [json.loads(message)] produced. *)
Definition respond (e : env) (h : host) (loaded : result json) : host * json :=
  let attempt :=
    match loaded with
    | Raise ex => Raise ex
    | Ok data => handle_message e h data
    end in
  match attempt with
  | Ok (h', response) => (h', response)
  | Raise (JSONDecodeError _) =>
      (h, JDict [(lit "type", JStr (lit "error"));
                 (lit "error", JStr (lit "Invalid JSON format"))])
  | Raise ex =>
      (h, JDict [(lit "type", JStr (lit "error"));
                 (lit "error", JStr (exn_str ex))])
  end.

(** One of the three message types that [handle_message] knows. *)
Definition known_type (v : json) : bool :=
  is_literal v "start_server" || is_literal v "stop_server"
  || is_literal v "ping".

(** What [json.loads] made of a payload that is not a control message:
    no JSON, JSON that is no object, or an object whose [type] is absent
    or not a known one. *)
Definition malformed (loaded : result json) : Prop :=
  match loaded with
  | Raise (JSONDecodeError _) => True
  | Raise _ => False
  | Ok (JDict d) => known_type (dict_get d (lit "type") (JStr (lit ""))) = false
  | Ok _ => True
  end.

(** How one turn of the [while] loop of line 185 ends. *)
Inductive turn :=
| Continue (h : host)
| Break
| Escaped (h : host) (ex : exn).

(** Lines 186-220: one turn of the loop. *)
Definition loop_turn (e : env) (h : host) : io -> turn * io :=
  fun s =>
    match read_message s with
    | (Raise ex, s1) => (Escaped h ex, s1)
    | (Ok None, s1) => (Break, s1)
    | (Ok (Some message), s1) =>
        let (h', response) := respond e h (json_loads message) in
        match write_frame (json_dumps true response) s1 with
        | (Ok _, s2) => (Continue h', s2)
        | (Raise ex, s2) => (Escaped h' ex, s2)
        end
    end.

(** The [finally] clause of lines 226-229. *)
Definition shut_down (h : host) : host :=
  stop_http_server
    {| server_thread := server_thread h; running := false;
       launched := launched h |}.

(** [run_native_messaging_loop(self)], lines 179-229.  The environment
    of the [k]-th turn is [clock k]; [fuel] bounds the number of turns. *)
Fixpoint loop_from (fuel : nat) (clock : nat -> env) (k : nat) (h : host)
  (s : io) : option (host * io) :=
  match fuel with
  | O => None
  | S fuel' =>
      if running h then
        match loop_turn (clock k) h s with
        | (Continue h', s') => loop_from fuel' clock (S k) h' s'
        | (Break, s') => Some (shut_down h, s')
        | (Escaped h' _, s') => Some (shut_down h', s')
        end
      else Some (shut_down h, s)
  end.

Definition run_native_messaging_loop (fuel : nat) (clock : nat -> env)
  (h : host) (s : io) : option (host * io) :=
  loop_from fuel clock 0
    {| server_thread := server_thread h; running := true;
       launched := launched h |} s.

(** ** HTTP front door: class ChatGPTAPIHandler *)

(** A request that [parse_request] accepted, as the handler sees it:
    [self.command], [self.path], [self.request_version] (which is
    [HTTP/0.9] when the request line says so or has no third word), the
    items of [dict(self.headers)], the outcome of
    [int(self.headers.get('Content-Length', 0))] (the integer, or the
    ValueError of [int]), and the octets the client sends after the
    headers before it stops sending. *)
Record request := {
  command : str;
  path : str;
  request_version : str;
  headers : list (str * str);
  content_length : result Z;
  rfile : bytes
}.

(** A response with its head: the status of [send_response], the
    headers of the [send_header] calls of the handler in order (the
    [Server] and [Date] that [send_response] puts before them are left
    out), and the octets written to [wfile]. *)
Record http_response := {
  status : Z;
  sent_headers : list (str * str);
  body : bytes
}.

(** What reaches the client.  When the request version is [HTTP/0.9],
    [send_response_only], [send_header] and [end_headers] of the base
    class put nothing into the headers buffer: the client gets the
    octets written to [wfile] and neither status line nor headers. *)
Inductive sent :=
| WithHead (r : http_response)
| BodyOnly (b : bytes).


Definition cors_headers : list (str * str) :=
  [(lit "Access-Control-Allow-Origin", lit "*");
   (lit "Access-Control-Allow-Methods", lit "GET, POST, PUT, DELETE, OPTIONS");
   (lit "Access-Control-Allow-Headers", lit "Content-Type, Authorization")].

(** [str(n)] of a length *)
Definition decimal (n : nat) : str :=
  lit (NilEmpty.string_of_uint (Nat.to_uint n)).

(** The status line of [send_response(code)] formats [code] with [%d]. *)
Definition status_of (code : json) : result Z :=
  match code with
  | JInt z => Ok z
  | JBool b => Ok (if b then 1 else 0)%Z
  | JFloat text => int_of_float text
  | _ => Raise (TypeError code)
  end.

(** [self.request_version == 'HTTP/0.9'] *)
Definition http09 (req : request) : bool :=
  bool_decide (request_version req = lit "HTTP/0.9").




(** [send_json_response(self, status_code, data)], lines 88-100, when
    the request version is not [HTTP/0.9]. *)
Definition send_json_response (status_code : json) (data : json)
  : result http_response :=
  match utf8_encode (json_dumps false data) with
  | Raise ex => Raise ex
  | Ok response_body =>
      match status_of status_code with
      | Raise ex => Raise ex
      | Ok code =>
          Ok {| status := code;
                sent_headers :=
                  (lit "Content-Type", lit "application/json; charset=utf-8")
                  :: cors_headers
                  ++ [(lit "Content-Length", decimal (length response_body))];
                body := response_body |}
      end
  end.

(** [send_json_response(self, status_code, data)], lines 88-100, for
    the request at hand.  Under [HTTP/0.9] no status line is formatted,
    so that no status code is rejected, and only line 100 writes. *)
Definition send_json_response_to (req : request) (status_code : json)
  (data : json) : result sent :=
  if http09 req then
    match utf8_encode (json_dumps false data) with
    | Raise ex => Raise ex
    | Ok response_body => Ok (BodyOnly response_body)
    end
  else
    match send_json_response status_code data with
    | Raise ex => Raise ex
    | Ok r => Ok (WithHead r)
    end.


(** [dict(self.headers)] *)
Definition headers_dict (req : request) : json :=
  JDict (List.map (fun kv => (fst kv, JStr (snd kv))) (headers req)).

(** [self.rfile.read(n)] on the buffered reader of the socket, line 48:
    [-1] reads to the end, a smaller number is a ValueError ("read
    length must be non-negative or -1"), and a number of octets for
    which there is no buffer, as every number from [2^63 - 1] on, is an
    OverflowError or a MemoryError. *)
Definition rfile_read (n : Z) (req : request) : result bytes :=
  if (n =? -1)%Z then Ok (rfile req)
  else if (n <? -1)%Z then Raise (NegativeLength n)
  else if (2 ^ 63 - 1 <=? n)%Z || (Z.of_N max_read <? n)%Z then
    Raise (TooLarge n)
  else Ok (take (Z.to_nat n) (rfile req)).

(** The envelope of lines 52-58. *)
Definition post_envelope (req : request) (post_data : bytes) : json :=
  JDict [(lit "type", JStr (lit "http_request"));
         (lit "method", JStr (lit "POST"));
         (lit "path", JStr (path req));
         (lit "headers", headers_dict req);
         (lit "body", JStr (utf8_decode_ignore post_data))].

(** The envelope of lines 73-79. *)
Definition delete_envelope (req : request) : json :=
  JDict [(lit "type", JStr (lit "http_request"));
         (lit "method", JStr (lit "DELETE"));
         (lit "path", JStr (path req));
         (lit "headers", headers_dict req);
         (lit "body", JStr [])].

(** Lines 61-68 and 81-86, where [send] stands for
    [self.send_json_response]. *)
Section Forwarding.
Context {A : Type}.
Variable send : json -> json -> result A.

(** Lines 64 and 82: the reply made from what [send_to_extension]
    returned. *)
Definition relay_by (response : json) : result A :=
  match py_get response (lit "status") (JInt 200) with
  | Raise ex => Raise ex
  | Ok code =>
      match py_get response (lit "body") (JDict []) with
      | Raise ex => Raise ex
      | Ok data => send code data
      end
  end.

(** Lines 61-64 and 81-82: the rest of the [try] block once the
    envelope is built. *)
Definition try_forward_by (request_data : json) : M A :=
  do response <- send_to_extension request_data;
  lift (relay_by response).

(** The [try] block with the handler of lines 66-68 and 84-86. *)
Definition forward_by (request_data : json) : M A :=
  try_except (try_forward_by request_data)
    (fun ex => lift (send (JInt 500) (JDict [(lit "error", JStr (exn_str ex))]))).

End Forwarding.

(** The same when the request version is not [HTTP/0.9]. *)
Definition relay : json -> result http_response :=
  relay_by send_json_response.

Definition try_forward : json -> M http_response :=
  try_forward_by send_json_response.

Definition forward : json -> M http_response :=
  forward_by send_json_response.

(** [do_POST(self)], lines 45-68. *)
Definition do_POST (req : request) : M sent :=
  do n <- lift (content_length req);
  do post_data <- lift (rfile_read n req);
  forward_by (send_json_response_to req) (post_envelope req post_data).

(** [do_DELETE(self)], lines 70-86. *)
Definition do_DELETE (req : request) : M sent :=
  forward_by (send_json_response_to req) (delete_envelope req).



(** ** The two threads that read standard input

    The main thread runs the loop of [run_native_messaging_loop]; the
    thread started by [start_http_server] runs the request handlers and,
    through them, [send_to_extension].  Both call
    [sys.stdin.buffer.read]; one call is one step. *)

(** Where the main thread is: before the [read(4)] of line 187, before
    the [read(text_length)] of line 194, or out of the loop. *)
Inductive loop_pc :=
| LoopReadLength
| LoopReadMessage (text_length : N)
| LoopExited.

(** Where [send_to_extension] is: before the writes of lines 106-109,
    before the [read(4)] of line 112, before the [read(text_length)] of
    line 119, or returned. *)
Inductive handler_pc :=
| HandlerWrite (data : json)
| HandlerReadLength
| HandlerReadResponse (text_length : N)
| HandlerReturned (response : json).

(** What became of an inbound frame: handled by [handle_message] with
    the reply written back, or returned to the caller of
    [send_to_extension]. *)
Inductive event :=
| Dispatched (message : bytes) (reply : json)
| Delivered (payload : bytes) (response : json).

Record world := {
  streams : io;
  the_host : host;
  loop_at : loop_pc;
  handler_at : handler_pc;
  trace : list event
}.

Inductive tid := MainThread | ServerThread.

Definition main_step (e : env) (w : world) : world :=
  match loop_at w with
  | LoopReadLength =>
      match stdin_read 4 (streams w) with
      | (Ok text_length_bytes, s1) =>
          {| streams := s1; the_host := the_host w;
             loop_at :=
               if (length text_length_bytes <? 4)%nat then LoopExited
               else LoopReadMessage (unpack_I order text_length_bytes);
             handler_at := handler_at w; trace := trace w |}
      | (Raise _, s1) =>
          {| streams := s1; the_host := the_host w; loop_at := LoopExited;
             handler_at := handler_at w; trace := trace w |}
      end
  | LoopReadMessage text_length =>
      let exited s h :=
        {| streams := s; the_host := h; loop_at := LoopExited;
           handler_at := handler_at w; trace := trace w |} in
      match stdin_read (N.to_nat text_length) (streams w) with
      | (Ok message_bytes, s1) =>
          if N.of_nat (length message_bytes) <? text_length then
            exited s1 (the_host w)
          else
            match utf8_decode message_bytes with
            | Raise _ => exited s1 (the_host w)
            | Ok message =>
                let (h', reply) :=
                  respond e (the_host w) (json_loads message) in
                match write_frame (json_dumps true reply) s1 with
                | (Ok _, s2) =>
                    {| streams := s2; the_host := h';
                       loop_at := LoopReadLength;
                       handler_at := handler_at w;
                       trace := trace w ++ [Dispatched message_bytes reply] |}
                | (Raise _, s2) => exited s2 h'
                end
            end
      | (Raise _, s1) => exited s1 (the_host w)
      end
  | LoopExited => w
  end.

Definition server_step (w : world) : world :=
  let moved s pc :=
    {| streams := s; the_host := the_host w; loop_at := loop_at w;
       handler_at := pc; trace := trace w |} in
  match handler_at w with
  | HandlerWrite data =>
      match write_frame (json_dumps true data) (streams w) with
      | (Ok _, s1) => moved s1 HandlerReadLength
      | (Raise ex, s1) => moved s1 (HandlerReturned (communication_error ex))
      end
  | HandlerReadLength =>
      match stdin_read 4 (streams w) with
      | (Ok text_length_bytes, s1) =>
          if (length text_length_bytes <? 4)%nat then
            moved s1
              (HandlerReturned
                 (communication_error
                    (Exception
                       (lit "Failed to read response length from extension"))))
          else
            moved s1 (HandlerReadResponse (unpack_I order text_length_bytes))
      | (Raise ex, s1) => moved s1 (HandlerReturned (communication_error ex))
      end
  | HandlerReadResponse text_length =>
      match stdin_read (N.to_nat text_length) (streams w) with
      | (Ok response_bytes, s1) =>
          if N.of_nat (length response_bytes) <? text_length then
            moved s1
              (HandlerReturned
                 (communication_error
                    (Exception
                       (lit "Failed to read complete response from extension"))))
          else
            match (do response <- lift (utf8_decode response_bytes);
                   lift (json_loads response)) s1 with
            | (Ok r, s2) =>
                {| streams := s2; the_host := the_host w;
                   loop_at := loop_at w; handler_at := HandlerReturned r;
                   trace := trace w ++ [Delivered response_bytes r] |}
            | (Raise ex, s2) =>
                moved s2 (HandlerReturned (communication_error ex))
            end
      | (Raise ex, s1) => moved s1 (HandlerReturned (communication_error ex))
      end
  | HandlerReturned _ => w
  end.

Definition step (e : env) (t : tid) (w : world) : world :=
  match t with
  | MainThread => main_step e w
  | ServerThread => server_step w
  end.

(** The threads take their steps in the order of [schedule]. *)
Fixpoint run (e : env) (schedule : list tid) (w : world) : world :=
  match schedule with
  | [] => w
  | t :: schedule' => run e schedule' (step e t w)
  end.

(** The request frame is written and its response is awaited. *)
Definition exchange_pending (w : world) : bool :=
  match handler_at w with
  | HandlerReadLength | HandlerReadResponse _ => true
  | _ => false
  end.

(** The next step of the thread is a read of standard input. *)
Definition reads_next (t : tid) (w : world) : bool :=
  match t with
  | MainThread =>
      match loop_at w with
      | LoopReadLength | LoopReadMessage _ => true
      | LoopExited => false
      end
  | ServerThread => exchange_pending w
  end.

End Host.

(** ** A small library instance for test vectors

    [dumps] writes the compact text of a value whose strings need no
    escaping; [loads] inverts it on the listed vectors and rejects every
    other text. *)
Module Sample.

Definition join (sep : str) : list str -> str :=
  fix go (l : list str) : str :=
    match l with
    | [] => []
    | [x] => x
    | x :: l' => x ++ sep ++ go l'
    end.

Definition quote : str := [0x22].

Definition decimal_Z (z : Z) : str :=
  lit (NilEmpty.string_of_int (Z.to_int z)).

Fixpoint dumps (v : json) : str :=
  match v with
  | JNone => lit "null"
  | JBool true => lit "true"
  | JBool false => lit "false"
  | JInt z => decimal_Z z
  | JFloat text => text
  | JStr s => quote ++ s ++ quote
  | JList l => lit "[" ++ join (lit ", ") (List.map dumps l) ++ lit "]"
  | JDict d =>
      lit "{"
      ++ join (lit ", ")
           (List.map
              (fun kv => quote ++ fst kv ++ quote ++ lit ": " ++ dumps (snd kv))
              d)
      ++ lit "}"
  end.

Definition vectors : list json :=
  [JDict [];
   JDict [(lit "type", JStr (lit "ping"))];
   JDict [(lit "type", JStr (lit "stop_server"))];
   JDict [(lit "type", JStr (lit "start_server")); (lit "port", JInt 9999)];
   JDict [(lit "status", JInt 204); (lit "body", JDict [])];
   JList [JInt 1; JInt 2]].

Definition loads (s : str) : result json :=
  match List.find (fun v => bool_decide (dumps v = s)) vectors with
  | Some v => Ok v
  | None => Raise (JSONDecodeError s)
  end.

Definition lib : PyLib :=
  {| json_loads := loads;
     json_dumps := fun _ => dumps;
     exn_text := fun _ => lit "error";
     py_str := dumps;
     int_of_float := fun text => Raise (ValueError text);
     max_read := 2 ^ 20;
     unsupported_page :=
       fun name =>
         List.map byte_of_N (lit "<h1>Unsupported method " ++ name ++ lit "</h1>") |}.

Definition quiet : env :=
  {| now_ms := 1700000000000; spawn := fun _ => ThreadServes |}.

(** The operating system refuses the port. *)
Definition port_in_use : env :=
  {| now_ms := 1700000000000; spawn := fun _ => ThreadExits |}.

(** The host after a successful [start_server] on port 9999. *)
Definition serving : host :=
  {| server_thread := Some {| target_port := JInt 9999; is_alive := true |};
     running := true; launched := [JInt 9999] |}.

(** The octets of a frame that carries [payload]. *)
Definition frame (order : byteorder) (payload : str) : bytes :=
  stdout (snd (write_frame order payload {| stdin := []; stdout := [] |})).

(** The fields of a [start_server] message and the answer to it. *)
Definition start_9999 : list (str * json) :=
  [(lit "type", JStr (lit "start_server")); (lit "port", JInt 9999)].

Definition started_9999 : json :=
  JDict [(lit "type", JStr (lit "server_started"));
         (lit "success", JBool true);
         (lit "port", JInt 9999)].

(** The answer to an object without a [type]. *)
Definition unknown_reply : list (str * json) :=
  [(lit "type", JStr (lit "unknown"));
   (lit "error", JStr (lit "Unknown message type: "))].

(** The answer to a payload that is no JSON. *)
Definition invalid_reply : json :=
  JDict [(lit "type", JStr (lit "error"));
         (lit "error", JStr (lit "Invalid JSON format"))].

Definition peer_response : json :=
  JDict [(lit "status", JInt 204); (lit "body", JDict [])].

(** [<method> /v1/chat HTTP/1.1] without headers or body. *)
Definition chat (method : str) : request :=
  {| command := method; path := lit "/v1/chat";
     request_version := lit "HTTP/1.1"; headers := [];
     content_length := Ok 0%Z; rfile := [] |}.

Definition delete_chat : request := chat (lit "DELETE").

(** A POST whose Content-Length header is not a number. *)
Definition post_bad_length : request :=
  {| command := lit "POST"; path := lit "/v1/chat";
     request_version := lit "HTTP/1.1";
     headers := [(lit "Content-Length", lit "abc")];
     content_length := Raise (ValueError (lit "abc")); rfile := [] |}.

(** A POST whose body is not UTF-8. *)
Definition post_bad_body : request :=
  {| command := lit "POST"; path := lit "/v1/chat";
     request_version := lit "HTTP/1.1";
     headers := [(lit "Content-Length", lit "4")];
     content_length := Ok 4%Z; rfile := [x41; xff; xc3; x42] |}.



(** The main thread waits at line 187, the server thread is about to
    forward a DELETE, and the peer will answer it with
    [peer_response]. *)
Definition two_readers : world :=
  {| streams := {| stdin := frame LittleEndian (dumps peer_response);
                   stdout := [] |};
     the_host := serving;
     loop_at := LoopReadLength;
     handler_at := HandlerWrite (delete_envelope delete_chat);
     trace := [] |}.

(** Where [two_readers] is after the threads took the steps of
    [schedule]. *)
Definition after (schedule : list tid) : world :=
  @run lib LittleEndian quiet schedule two_readers.

End Sample.

(** ** Vocabulary of the further properties *)

(** The response that [send_json_response] builds for a status and the
    octets of a body. *)
Definition json_response (code : Z) (b : bytes) : http_response :=
  {| status := code;
     sent_headers :=
       (lit "Content-Type", lit "application/json; charset=utf-8")
       :: cors_headers ++ [(lit "Content-Length", decimal (length b))];
     body := b |}.

(** The thread of line 151 exists and is alive. *)
Definition alive (h : host) : bool :=
  match server_thread h with
  | Some t => is_alive t
  | None => false
  end.

(** The host as line 182 leaves it. *)
Definition started (h : host) : host :=
  {| server_thread := server_thread h; running := true;
     launched := launched h |}.

(** The [type] of the replies of [handle_message], and of all replies of
    the loop. *)
Definition reply_types : list str :=
  [lit "server_started"; lit "server_stopped"; lit "pong"; lit "unknown"].

Definition all_reply_types : list str := reply_types ++ [lit "error"].

Section Frames.
Variable order : byteorder.

(** The octets of the frame that [write_frame] makes of [payload]. *)
Definition frame_of (payload : str) : option bytes :=
  match write_frame order payload {| stdin := []; stdout := [] |} with
  | (Ok _, s) => Some (stdout s)
  | (Raise _, _) => None
  end.

(** The octets of one frame after the other. *)
Fixpoint frames_of (payloads : list str) : option bytes :=
  match payloads with
  | [] => Some []
  | p :: ps =>
      match frame_of p, frames_of ps with
      | Some f, Some fs => Some (f ++ fs)
      | _, _ => None
      end
  end.

End Frames.

Section Served.
Context {L : PyLib}.

(** The host after the messages were handled one after the other from
    turn [k] on, and the texts of the replies. *)
Fixpoint served (clock : nat -> env) (k : nat) (h : host) (messages : list str)
  : host * list str :=
  match messages with
  | [] => (h, [])
  | m :: ms =>
      let (h1, reply) := respond (clock k) h (json_loads m) in
      let (h2, replies) := served clock (S k) h1 ms in
      (h2, json_dumps true reply :: replies)
  end.

End Served.

(** ** Further test vectors *)

Module Vectors.

Definition ping_text : str :=
  Sample.dumps (JDict [(lit "type", JStr (lit "ping"))]).

Definition start_text : str := Sample.dumps (JDict Sample.start_9999).

(** The clock stands still and every port is free. *)
Definition clock (k : nat) : env := Sample.quiet.

(** A [start_server] frame and a [ping] frame. *)
Definition two_frames : bytes :=
  Sample.frame LittleEndian start_text ++ Sample.frame LittleEndian ping_text.

Definition two_replies : bytes :=
  Sample.frame LittleEndian (Sample.dumps Sample.started_9999)
  ++ Sample.frame LittleEndian
       (Sample.dumps
          (JDict [(lit "type", JStr (lit "pong"));
                  (lit "timestamp", JInt 1700000000000)])).

(** The frame of the request that [do_DELETE] forwards for
    [Sample.delete_chat]. *)
Definition delete_frame : bytes :=
  Sample.frame LittleEndian (Sample.dumps (delete_envelope Sample.delete_chat)).

(** The UTF-8 octets of the text of a value. *)
Definition octets (v : json) : bytes := List.map byte_of_N (Sample.dumps v).

Definition communication_error_body (msg : str) : json :=
  JDict [(lit "error", JStr (lit "Extension communication error: " ++ msg))].

(** The same POST as [Sample.post_bad_body] with more octets after the
    four that Content-Length announces. *)
Definition post_longer_body : request :=
  {| command := lit "POST"; path := lit "/v1/chat";
     request_version := lit "HTTP/1.1";
     headers := [(lit "Content-Length", lit "4")];
     content_length := Ok 4%Z; rfile := [x41; xff; xc3; x42; x43; x44] |}.

(** A POST that announces a negative length other than -1. *)
Definition post_negative_length : request :=
  {| command := lit "POST"; path := lit "/v1/chat";
     request_version := lit "HTTP/1.1";
     headers := [(lit "Content-Length", lit "-5")];
     content_length := Ok (-5)%Z; rfile := [x41; x42; x43] |}.


(** A DELETE with [Content-Length: abc] and the octets of a body. *)
Definition delete_with_body (sent_after_headers : bytes) : request :=
  {| command := lit "DELETE"; path := lit "/v1/chat";
     request_version := lit "HTTP/1.1";
     headers := [(lit "Content-Length", lit "abc")];
     content_length := Raise (ValueError (lit "abc"));
     rfile := sent_after_headers |}.

(** The input on which the peer answers with [Sample.peer_response]. *)
Definition peer_answers : io :=
  {| stdin := [x1b; x00; x00; x00] ++ octets Sample.peer_response ++ [];
     stdout := [] |}.

(** Nothing to read and nothing written yet. *)
Definition idle : io := {| stdin := []; stdout := [] |}.

(** [DELETE /v1/chat HTTP/0.9] without headers or body. *)
Definition delete_chat_09 : request :=
  {| command := lit "DELETE"; path := lit "/v1/chat";
     request_version := lit "HTTP/0.9"; headers := [];
     content_length := Ok 0%Z; rfile := [] |}.

(** The frame of the request that [do_POST] forwards for
    [Sample.post_bad_body]. *)
Definition post_frame : bytes :=
  Sample.frame LittleEndian
    (Sample.dumps
       (post_envelope Sample.post_bad_body (rfile Sample.post_bad_body))).


End Vectors.

(** * Properties *)

#[local] Ltac Zify.zify_post_hook ::= Z.to_euclidean_division_equations.

(** ** Octets and the length prefix *)

Lemma to_N_lt (b : byte) : Byte.to_N b < 256.
Proof. pose proof (Byte.to_N_bounded b). lia. Qed.

Lemma to_N_byte_of_N (n : N) : Byte.to_N (byte_of_N n) = n mod 256.
Proof.
  unfold byte_of_N.
  destruct (Byte.of_N (n mod 256)) as [b|] eqn:E.
  - by apply Byte.to_of_N.
  - apply Byte.of_N_None_iff in E. lia.
Qed.

Lemma to_N_byte_of_N_small (n : N) : n < 256 -> Byte.to_N (byte_of_N n) = n.
Proof. intros. rewrite to_N_byte_of_N. apply N.mod_small. lia. Qed.

Lemma byte_of_N_to_N (b : byte) : byte_of_N (Byte.to_N b) = b.
Proof.
  unfold byte_of_N. rewrite N.mod_small by apply to_N_lt.
  by rewrite Byte.of_to_N.
Qed.

Lemma to_N_inj (a b : byte) : Byte.to_N a = Byte.to_N b -> a = b.
Proof.
  intros E. rewrite <- (byte_of_N_to_N a), <- (byte_of_N_to_N b). by rewrite E.
Qed.

Lemma pack_I_length order n b : pack_I order n = Ok b -> length b = 4%nat.
Proof.
  unfold pack_I. destruct (n <? 2 ^ 32); [|discriminate].
  intros [= <-]. by destruct order.
Qed.

Lemma pack_I_Ok order n : n < 2 ^ 32 -> exists b, pack_I order n = Ok b.
Proof.
  intros H. unfold pack_I.
  destruct (N.ltb_spec n (2 ^ 32)); [eauto | lia].
Qed.

Lemma pack_I_Raise order n :
  2 ^ 32 <= n -> pack_I order n = Raise (StructError n).
Proof.
  intros H. unfold pack_I.
  destruct (N.ltb_spec n (2 ^ 32)); [lia | done].
Qed.

Lemma unpack_pack_I order n b : pack_I order n = Ok b -> unpack_I order b = n.
Proof.
  unfold pack_I. destruct (N.ltb_spec n (2 ^ 32)) as [H|]; [|discriminate].
  intros [= <-].
  change (2 ^ 32) with 4294967296 in H.
  destruct order; cbn [unpack_I]; rewrite !to_N_byte_of_N;
    change (2 ^ 8) with 256; change (2 ^ 16) with 65536;
    change (2 ^ 24) with 16777216; lia.
Qed.

Lemma unpack_I_lt order b : unpack_I order b < 2 ^ 32.
Proof.
  unfold unpack_I.
  destruct b as [|x0 [|x1 [|x2 [|x3 [|]]]]]; try reflexivity.
  pose proof (to_N_lt x0). pose proof (to_N_lt x1).
  pose proof (to_N_lt x2). pose proof (to_N_lt x3).
  change (2 ^ 8) with 256; change (2 ^ 16) with 65536;
    change (2 ^ 24) with 16777216; change (2 ^ 32) with 4294967296.
  destruct order; lia.
Qed.

(** ** UTF-8 *)

Ltac decide_cmp :=
  repeat match goal with
    | |- context [?a <? ?b] => destruct (N.ltb_spec a b); try lia
    | |- context [?a <=? ?b] => destruct (N.leb_spec a b); try lia
    | |- context [?a =? ?b] => destruct (N.eqb_spec a b); try lia
    end.

Lemma decode_encode_char h c b rest :
  encode_char c = Some b ->
  decode_from h DStart (b ++ rest) = cons c <$> decode_from h DStart rest.
Proof.
  unfold encode_char.
  destruct (N.ltb_spec c 0x80); [|destruct (N.ltb_spec c 0x800);
    [|destruct (N.ltb_spec c 0x10000);
      [destruct (N.leb_spec 0xD800 c); [destruct (N.ltb_spec c 0xE000)|]
      |destruct (N.ltb_spec c 0x110000)]]];
    cbn [andb]; intros [= <-]; cbn [app decode_from].
  - rewrite to_N_byte_of_N_small by lia. unfold start_byte. decide_cmp. done.
  - rewrite !to_N_byte_of_N_small by lia.
    set (b0 := 0xC0 + c / 64). set (b1 := 0x80 + c mod 64).
    assert (0xC2 <= b0 <= 0xDF /\ 0x80 <= b1 <= 0xBF
            /\ (b0 - 0xC0) * 64 + (b1 - 0x80) = c) as (Hb0 & Hb1 & Hc)
      by (subst b0 b1; lia).
    clearbody b0 b1. unfold start_byte. decide_cmp; cbn [andb]; do 2 f_equal; lia.
  - rewrite !to_N_byte_of_N_small by lia.
    set (b0 := 0xE0 + c / 4096). set (b1 := 0x80 + (c / 64) mod 64).
    set (b2 := 0x80 + c mod 64).
    assert (0xE0 <= b0 <= 0xEF /\ 0x80 <= b1 <= 0xBF /\ 0x80 <= b2 <= 0xBF
            /\ (b0 = 0xE0 -> 0xA0 <= b1) /\ b0 <> 0xED
            /\ ((b0 - 0xE0) * 64 + (b1 - 0x80)) * 64 + (b2 - 0x80) = c)
      as (Hb0 & Hb1 & Hb2 & Hb3 & Hb4 & Hc) by (subst b0 b1 b2; lia).
    clearbody b0 b1 b2. unfold start_byte. decide_cmp; cbn [andb]; do 2 f_equal; lia.
  - rewrite !to_N_byte_of_N_small by lia.
    set (b0 := 0xE0 + c / 4096). set (b1 := 0x80 + (c / 64) mod 64).
    set (b2 := 0x80 + c mod 64).
    assert (0xE0 <= b0 <= 0xEF /\ 0x80 <= b1 <= 0xBF /\ 0x80 <= b2 <= 0xBF
            /\ (b0 = 0xE0 -> 0xA0 <= b1) /\ (b0 = 0xED -> b1 <= 0x9F)
            /\ ((b0 - 0xE0) * 64 + (b1 - 0x80)) * 64 + (b2 - 0x80) = c)
      as (Hb0 & Hb1 & Hb2 & Hb3 & Hb4 & Hc) by (subst b0 b1 b2; lia).
    clearbody b0 b1 b2. unfold start_byte. decide_cmp; cbn [andb]; do 2 f_equal; lia.
  - rewrite !to_N_byte_of_N_small by lia.
    set (b0 := 0xF0 + c / 262144). set (b1 := 0x80 + (c / 4096) mod 64).
    set (b2 := 0x80 + (c / 64) mod 64). set (b3 := 0x80 + c mod 64).
    assert (0xF0 <= b0 <= 0xF4 /\ 0x80 <= b1 <= 0xBF /\ 0x80 <= b2 <= 0xBF
            /\ 0x80 <= b3 <= 0xBF
            /\ (b0 = 0xF0 -> 0x90 <= b1) /\ (b0 = 0xF4 -> b1 <= 0x8F)
            /\ (((b0 - 0xF0) * 64 + (b1 - 0x80)) * 64 + (b2 - 0x80)) * 64
               + (b3 - 0x80) = c)
      as (Hb0 & Hb1 & Hb2 & Hb3 & Hb4 & Hb5 & Hc) by (subst b0 b1 b2 b3; lia).
    clearbody b0 b1 b2 b3.
    unfold start_byte. decide_cmp; cbn [andb]; do 2 f_equal; lia.
Qed.

Lemma encode_chars_decode h s b :
  encode_chars s = Some b -> decode_from h DStart b = Some s.
Proof.
  revert b. induction s as [|c s IH]; intros b.
  - by intros [= <-].
  - cbn [encode_chars].
    destruct (encode_char c) as [bc|] eqn:Ec; [|discriminate].
    destruct (encode_chars s) as [bs|]; [|discriminate].
    intros [= <-]. rewrite (decode_encode_char _ _ _ _ Ec), (IH bs eq_refl).
    done.
Qed.

Lemma strict_ignore bs : forall st s,
  decode_from Strict st bs = Some s -> decode_from Ignore st bs = Some s.
Proof.
  induction bs as [|b rest IH]; intros st s.
  - destruct st; [done | discriminate].
  - cbn [decode_from].
    assert (F : forall s,
      match start_byte (Byte.to_N b) with
      | SChar c => cons c <$> decode_from Strict DStart rest
      | SMore st' => decode_from Strict st' rest
      | SInvalid => None
      end = Some s ->
      match start_byte (Byte.to_N b) with
      | SChar c => cons c <$> decode_from Ignore DStart rest
      | SMore st' => decode_from Ignore st' rest
      | SInvalid => decode_from Ignore DStart rest
      end = Some s).
    { intros s0. destruct (start_byte (Byte.to_N b)); [|apply IH|discriminate].
      destruct (decode_from Strict DStart rest) eqn:E; [|discriminate].
      by rewrite (IH _ _ E). }
    destruct st as [|need acc lo hi]; [apply F|].
    destruct ((lo <=? Byte.to_N b) && (Byte.to_N b <=? hi)); [|discriminate].
    destruct need; [|apply IH].
    destruct (decode_from Strict DStart rest) eqn:E; [|discriminate].
    by rewrite (IH _ _ E).
Qed.

Lemma start_char b c : start_byte (Byte.to_N b) = SChar c -> encode_char c = Some [b].
Proof.
  pose proof (to_N_lt b).
  unfold start_byte. decide_cmp; intros [= <-].
  unfold encode_char. decide_cmp. by rewrite byte_of_N_to_N.
Qed.

Ltac byte_eq :=
  apply to_N_inj; rewrite to_N_byte_of_N_small by lia; lia.

Lemma start_more b st : start_byte (Byte.to_N b) = SMore st -> pending_ok st [b].
Proof.
  pose proof (to_N_lt b).
  unfold start_byte. decide_cmp; intros [= <-]; intros c cs Hc Hcs Hlen.
  all: repeat (destruct cs as [|? cs]; try discriminate Hlen).
  all: repeat match goal with
         | H : Forall _ (_ :: _) |- _ => apply Forall_cons in H; destruct H
         end.
  all: cbn [accumulate fold_left app].
  all: pose proof (to_N_lt c).
  all: unfold encode_char; decide_cmp; cbn [andb]; try lia.
  all: repeat f_equal; byte_eq.
Qed.

Lemma pending_more n acc lo hi p b :
  pending_ok (DCont (S n) acc lo hi) p ->
  lo <= Byte.to_N b <= hi ->
  pending_ok (DCont n (acc * 64 + (Byte.to_N b - 0x80)) 0x80 0xBF) (p ++ [b]).
Proof.
  intros H Hb c cs Hc Hcs Hlen.
  rewrite <- app_assoc. apply (H b (c :: cs)); [done| |by cbn; f_equal].
  by constructor.
Qed.

Lemma pending_last acc lo hi p b :
  pending_ok (DCont 0 acc lo hi) p ->
  lo <= Byte.to_N b <= hi ->
  encode_char (acc * 64 + (Byte.to_N b - 0x80)) = Some (p ++ [b]).
Proof. intros H Hb. by apply (H b []). Qed.

Lemma in_range lo hi b :
  (lo <=? b) && (b <=? hi) = true -> lo <= b <= hi.
Proof.
  intros [H1 H2]%andb_prop. apply N.leb_le in H1. apply N.leb_le in H2. lia.
Qed.

Lemma ignore_keeps bs : forall st p,
  pending_ok st p ->
  exists s kept,
    decode_from Ignore st bs = Some s
    /\ encode_chars s = Some kept
    /\ sublist kept (p ++ bs).
Proof.
  induction bs as [|b rest IH]; intros st p Hp.
  - exists [], []. split; [by destruct st|]. split; [done|apply sublist_nil_l].
  - cbn [decode_from].
    assert (F : exists s kept,
      match start_byte (Byte.to_N b) with
      | SChar c => cons c <$> decode_from Ignore DStart rest
      | SMore st' => decode_from Ignore st' rest
      | SInvalid => decode_from Ignore DStart rest
      end = Some s
      /\ encode_chars s = Some kept /\ sublist kept (b :: rest)).
    { destruct (start_byte (Byte.to_N b)) as [c|st'|] eqn:Eb.
      - destruct (IH DStart [] eq_refl) as (s & kept & -> & Hk & Hs).
        exists (c :: s), (b :: kept). split; [done|]. split.
        + cbn [encode_chars]. by rewrite (start_char _ _ Eb), Hk.
        + by apply sublist_skip.
      - apply (IH st' [b]). by apply start_more.
      - destruct (IH DStart [] eq_refl) as (s & kept & -> & Hk & Hs).
        exists s, kept. split; [done|]. split; [done|]. by apply sublist_cons. }
    destruct st as [|need acc lo hi].
    { cbn in Hp. subst p. apply F. }
    destruct ((lo <=? Byte.to_N b) && (Byte.to_N b <=? hi)) eqn:Er.
    + apply (in_range lo hi) in Er. destruct need as [|need].
      * destruct (IH DStart [] eq_refl) as (s & kept & -> & Hk & Hs).
        eexists _, ((p ++ [b]) ++ kept). split; [done|]. split.
        -- cbn [encode_chars]. by rewrite (pending_last _ _ _ _ _ Hp Er), Hk.
        -- rewrite (cons_middle b p rest), app_assoc. by apply sublist_app.
      * rewrite (cons_middle b p rest), app_assoc. apply IH.
        by apply (pending_more _ _ lo hi).
    + destruct F as (s & kept & -> & Hk & Hs).
      exists s, kept. split; [done|]. split; [done|].
      by apply sublist_inserts_l.
Qed.

(** ** Frames *)

Lemma utf8_encode_decode s b : utf8_encode s = Ok b -> utf8_decode b = Ok s.
Proof.
  unfold utf8_encode, utf8_decode.
  destruct (encode_chars s) as [b'|] eqn:E; [|discriminate].
  intros [= <-]. by rewrite (encode_chars_decode Strict s b' E).
Qed.

Lemma write_frame_ok order P encoded s :
  utf8_encode P = Ok encoded ->
  N.of_nat (length encoded) < 2 ^ 32 ->
  exists prefix,
    pack_I order (N.of_nat (length encoded)) = Ok prefix
    /\ write_frame order P s
       = (Ok tt, {| stdin := stdin s; stdout := stdout s ++ prefix ++ encoded |}).
Proof.
  intros He Hn. destruct (pack_I_Ok order _ Hn) as [prefix Hp].
  exists prefix. split; [done|].
  unfold write_frame, bind, lift, stdout_write. rewrite He, Hp. cbn.
  by rewrite <- app_assoc.
Qed.

(** An encoding of 2^32 octets or more is rejected by [struct.pack]
    before anything is written. *)
Lemma write_frame_too_long order P encoded s :
  utf8_encode P = Ok encoded ->
  2 ^ 32 <= N.of_nat (length encoded) ->
  write_frame order P s = (Raise (StructError (N.of_nat (length encoded))), s).
Proof.
  intros He Hn. unfold write_frame, bind, lift.
  by rewrite He, (pack_I_Raise order _ Hn).
Qed.

Lemma stream_read_app n (p t : bytes) :
  length p = n -> stream_read n (p ++ t) = (p, t).
Proof.
  intros <-. unfold stream_read. by rewrite take_app_length, drop_app_length.
Qed.

Lemma read_complete order prefix payload rest out :
  length prefix = 4%nat ->
  unpack_I order prefix = N.of_nat (length payload) ->
  read_message order {| stdin := prefix ++ payload ++ rest; stdout := out |}
  = (match utf8_decode payload with
     | Ok m => Ok (Some m)
     | Raise ex => Raise ex
     end, {| stdin := rest; stdout := out |})
  /\ read_response order {| stdin := prefix ++ payload ++ rest; stdout := out |}
     = (utf8_decode payload, {| stdin := rest; stdout := out |}).
Proof.
  intros Hl Hu.
  unfold read_message, read_response, bind, stdin_read, lift, ret.
  cbn [stdin stdout].
  rewrite (stream_read_app 4 prefix _ Hl), Hl, Nat.ltb_irrefl, Hu.
  cbn [stdin stdout].
  rewrite (stream_read_app _ payload rest) by (symmetry; apply Nat2N.id).
  rewrite N.ltb_irrefl.
  split; [|done]. by destruct (utf8_decode payload).
Qed.

(** C3.  A payload that encodes to fewer than 2^32 octets is written as
    a frame of four prefix octets, in either byte order, followed by its
    UTF-8 octets; reading one frame back from those octets, on the path
    of the control loop and on the path of [send_to_extension], yields
    exactly the payload and leaves what follows the frame unread. *)
Theorem frame_round_trip order (P : str) (encoded rest : bytes) (s : io) :
  utf8_encode P = Ok encoded ->
  N.of_nat (length encoded) < 2 ^ 32 ->
  exists frame,
    write_frame order P s
    = (Ok tt, {| stdin := stdin s; stdout := stdout s ++ frame |})
    /\ length frame = (4 + length encoded)%nat
    /\ read_message order {| stdin := frame ++ rest; stdout := [] |}
       = (Ok (Some P), {| stdin := rest; stdout := [] |})
    /\ read_response order {| stdin := frame ++ rest; stdout := [] |}
       = (Ok P, {| stdin := rest; stdout := [] |}).
Proof.
  intros He Hn.
  destruct (write_frame_ok order P encoded s He Hn) as (prefix & Hp & Hw).
  exists (prefix ++ encoded). split; [done|].
  pose proof (pack_I_length _ _ _ Hp) as Hl.
  split; [by rewrite length_app, Hl|].
  rewrite <- app_assoc.
  destruct (read_complete order prefix encoded rest [] Hl
              (unpack_pack_I _ _ _ Hp)) as [Hm Hr].
  rewrite Hm, Hr, (utf8_encode_decode _ _ He). done.
Qed.

Lemma read_short_length order s :
  (length (stdin s) < 4)%nat ->
  read_response order s
  = (Raise (Exception (lit "Failed to read response length from extension")),
     {| stdin := []; stdout := stdout s |})
  /\ read_message order s = (Ok None, {| stdin := []; stdout := stdout s |}).
Proof.
  intros H.
  unfold read_message, read_response, bind, stdin_read, stream_read, raise, ret.
  rewrite length_take, (drop_ge (stdin s) 4) by lia.
  destruct (Nat.ltb_spec (4 `min` length (stdin s)) 4); [done | lia].
Qed.

Lemma read_short_payload order s :
  (4 <= length (stdin s))%nat ->
  N.of_nat (length (stdin s) - 4) < declared_length order (stdin s) ->
  read_response order s
  = (Raise (Exception (lit "Failed to read complete response from extension")),
     {| stdin := []; stdout := stdout s |})
  /\ read_message order s = (Ok None, {| stdin := []; stdout := stdout s |}).
Proof.
  intros H4 Hn. unfold declared_length in Hn.
  unfold read_message, read_response, bind, stdin_read, stream_read, raise, ret.
  rewrite length_take.
  destruct (Nat.ltb_spec (4 `min` length (stdin s)) 4); [lia|].
  cbn [stdin stdout]. rewrite length_take, length_drop.
  set (n := unpack_I order (take 4 (stdin s))) in *.
  rewrite (drop_ge (drop 4 (stdin s)) (N.to_nat n))
    by (rewrite length_drop; lia).
  destruct (N.ltb_spec (N.of_nat (N.to_nat n `min` (length (stdin s) - 4))) n);
    [done | lia].
Qed.

Lemma read_whole order s :
  (4 <= length (stdin s))%nat ->
  declared_length order (stdin s) <= N.of_nat (length (stdin s) - 4) ->
  exists prefix payload rest,
    stdin s = prefix ++ payload ++ rest
    /\ length prefix = 4%nat
    /\ N.of_nat (length payload) = unpack_I order prefix
    /\ unpack_I order prefix = declared_length order (stdin s).
Proof.
  intros H4 Hn. unfold declared_length in *.
  exists (take 4 (stdin s)),
    (take (N.to_nat (unpack_I order (take 4 (stdin s)))) (drop 4 (stdin s))),
    (drop (N.to_nat (unpack_I order (take 4 (stdin s)))) (drop 4 (stdin s))).
  rewrite !take_drop. split; [done|].
  rewrite !length_take, length_drop. split; [lia|]. split; [lia|done].
Qed.

(** C4.  With fewer than four octets of input, [send_to_extension]
    raises "Failed to read response length from extension" and the
    control loop breaks; with four octets that declare more than what
    follows, [send_to_extension] raises "Failed to read complete response
    from extension" and the control loop breaks; and a payload is handed
    on only when the input starts with four octets and exactly as many
    octets as they declare. *)
Theorem read_frame_outcomes order (s : io) :
  ((length (stdin s) < 4)%nat ->
   fst (read_response order s)
   = Raise (Exception (lit "Failed to read response length from extension"))
   /\ fst (read_message order s) = Ok None)
  /\ ((4 <= length (stdin s))%nat ->
      N.of_nat (length (stdin s) - 4) < declared_length order (stdin s) ->
      fst (read_response order s)
      = Raise (Exception (lit "Failed to read complete response from extension"))
      /\ fst (read_message order s) = Ok None)
  /\ (forall m,
        fst (read_message order s) = Ok (Some m)
        \/ fst (read_response order s) = Ok m ->
        exists prefix payload rest,
          stdin s = prefix ++ payload ++ rest
          /\ length prefix = 4%nat
          /\ N.of_nat (length payload) = unpack_I order prefix
          /\ utf8_decode payload = Ok m).
Proof.
  split; [|split].
  - intros H. destruct (read_short_length order s H) as [-> ->]. done.
  - intros H4 Hn. destruct (read_short_payload order s H4 Hn) as [-> ->]. done.
  - intros m Hm.
    destruct (Nat.lt_ge_cases (length (stdin s)) 4) as [H|H4].
    { destruct (read_short_length order s H) as [Hr Hl].
      rewrite Hr, Hl in Hm. by destruct Hm. }
    destruct (N.lt_ge_cases (N.of_nat (length (stdin s) - 4))
                (declared_length order (stdin s))) as [Hn|Hn].
    { destruct (read_short_payload order s H4 Hn) as [Hr Hl].
      rewrite Hr, Hl in Hm. by destruct Hm. }
    destruct (read_whole order s H4 Hn) as (prefix & payload & rest & E & Hl & Hp & _).
    exists prefix, payload, rest. split; [done|]. split; [done|]. split; [done|].
    destruct s as [inp out]. cbn [stdin] in E. subst inp.
    destruct (read_complete order prefix payload rest out Hl (eq_sym Hp))
      as [Hm' Hr'].
    rewrite Hm', Hr' in Hm. cbn [fst] in Hm.
    destruct (utf8_decode payload); destruct Hm; congruence.
Qed.

(** The empty payload, and a payload with characters of two, three and
    four octets. *)
Lemma frame_round_trip_witness :
  (exists frame,
     write_frame LittleEndian [] {| stdin := []; stdout := [] |}
     = (Ok tt, {| stdin := []; stdout := [] ++ frame |})
     /\ length frame = (4 + 0)%nat
     /\ read_message LittleEndian {| stdin := frame ++ []; stdout := [] |}
        = (Ok (Some []), {| stdin := []; stdout := [] |})
     /\ read_response LittleEndian {| stdin := frame ++ []; stdout := [] |}
        = (Ok [], {| stdin := []; stdout := [] |}))
  /\ (exists frame,
        write_frame BigEndian [0xE9; 0x20AC; 0x1F600; 0x41]
          {| stdin := []; stdout := [] |}
        = (Ok tt, {| stdin := []; stdout := [] ++ frame |})
        /\ length frame = (4 + 10)%nat
        /\ read_message BigEndian {| stdin := frame ++ [x07]; stdout := [] |}
           = (Ok (Some [0xE9; 0x20AC; 0x1F600; 0x41]),
              {| stdin := [x07]; stdout := [] |})
        /\ read_response BigEndian {| stdin := frame ++ [x07]; stdout := [] |}
           = (Ok [0xE9; 0x20AC; 0x1F600; 0x41],
              {| stdin := [x07]; stdout := [] |})).
Proof.
  split.
  - apply (frame_round_trip LittleEndian [] [] [] {| stdin := []; stdout := [] |});
      reflexivity.
  - apply (frame_round_trip BigEndian [0xE9; 0x20AC; 0x1F600; 0x41]
             [xc3; xa9; xe2; x82; xac; xf0; x9f; x98; x80; x41] [x07]
             {| stdin := []; stdout := [] |}); reflexivity.
Defined.

(** Two octets; five declared and two present; a whole frame. *)
Lemma read_frame_outcomes_witness :
  (fst (read_response LittleEndian {| stdin := [x02; x00]; stdout := [] |})
   = Raise (Exception (lit "Failed to read response length from extension"))
   /\ fst (read_message LittleEndian {| stdin := [x02; x00]; stdout := [] |})
      = Ok None)
  /\ (fst (read_response LittleEndian
             {| stdin := [x05; x00; x00; x00; x7b; x7d]; stdout := [] |})
      = Raise (Exception (lit "Failed to read complete response from extension"))
      /\ fst (read_message LittleEndian
                {| stdin := [x05; x00; x00; x00; x7b; x7d]; stdout := [] |})
         = Ok None)
  /\ (exists prefix payload rest,
        [x02; x00; x00; x00; x7b; x7d; x09] = prefix ++ payload ++ rest
        /\ length prefix = 4%nat
        /\ N.of_nat (length payload) = unpack_I LittleEndian prefix
        /\ utf8_decode payload = Ok [0x7b; 0x7d]).
Proof.
  split; [|split].
  - apply (read_frame_outcomes LittleEndian {| stdin := [x02; x00]; stdout := [] |}).
    cbn. lia.
  - apply (read_frame_outcomes LittleEndian
             {| stdin := [x05; x00; x00; x00; x7b; x7d]; stdout := [] |}).
    + cbn. lia.
    + reflexivity.
  - apply (read_frame_outcomes LittleEndian
             {| stdin := [x02; x00; x00; x00; x7b; x7d; x09]; stdout := [] |}
             ). left. reflexivity.
Defined.

(** ** No cap on the declared length *)

Lemma decode_zeros h n :
  decode_from h DStart (repeat x00 n) = Some (repeat 0 n).
Proof.
  induction n as [|n IH]; [done|].
  cbn [repeat decode_from]. change (start_byte (Byte.to_N x00)) with (SChar 0).
  by rewrite IH.
Qed.

(** C8, as amended.  Neither read path compares the declared length with
    a cap: a complete frame with a UTF-8 payload is accepted on both
    paths whatever its length, and the only bound on that length is the
    2^32 - 1 that four prefix octets can declare. *)
Theorem frames_of_any_length_accepted order prefix payload rest out m :
  length prefix = 4%nat ->
  unpack_I order prefix = N.of_nat (length payload) ->
  utf8_decode payload = Ok m ->
  N.of_nat (length payload) < 2 ^ 32
  /\ read_message order {| stdin := prefix ++ payload ++ rest; stdout := out |}
     = (Ok (Some m), {| stdin := rest; stdout := out |})
  /\ read_response order {| stdin := prefix ++ payload ++ rest; stdout := out |}
     = (Ok m, {| stdin := rest; stdout := out |}).
Proof.
  intros Hl Hu Hd. split.
  - rewrite <- Hu. apply unpack_I_lt.
  - destruct (read_complete order prefix payload rest out Hl Hu) as [-> ->].
    by rewrite Hd.
Qed.

(** A big-endian frame of two octets. *)
Lemma frames_of_any_length_accepted_witness :
  N.of_nat (length [x7b; x7d]) < 2 ^ 32
  /\ read_message BigEndian
       {| stdin := [x00; x00; x00; x02] ++ [x7b; x7d] ++ [x01]; stdout := [] |}
     = (Ok (Some [0x7b; 0x7d]), {| stdin := [x01]; stdout := [] |})
  /\ read_response BigEndian
       {| stdin := [x00; x00; x00; x02] ++ [x7b; x7d] ++ [x01]; stdout := [] |}
     = (Ok [0x7b; 0x7d], {| stdin := [x01]; stdout := [] |}).
Proof.
  apply (frames_of_any_length_accepted BigEndian [x00; x00; x00; x02]
           [x7b; x7d] [x01] [] [0x7b; 0x7d]); reflexivity.
Defined.

(** C8 as stated fails: below what the prefix can declare there is no
    cap above which frames are refused; a frame of [cap + 1] zero octets
    is accepted. *)
Lemma no_cap_on_declared_length :
  ~ exists cap : N,
      cap < 2 ^ 32 - 1
      /\ forall order s m,
           fst (read_message order s) = Ok (Some m)
           \/ fst (read_response order s) = Ok m ->
           declared_length order (stdin s) <= cap.
Proof.
  intros (cap & Hcap & H).
  assert (Hn : cap + 1 < 2 ^ 32) by lia.
  destruct (pack_I_Ok LittleEndian _ Hn) as [prefix Hp].
  pose proof (pack_I_length _ _ _ Hp) as Hl.
  pose proof (unpack_pack_I _ _ _ Hp) as Hu.
  set (payload := repeat x00 (N.to_nat (cap + 1))).
  assert (Hlen : N.of_nat (length payload) = cap + 1)
    by (unfold payload; rewrite repeat_length; lia).
  assert (Hd : utf8_decode payload = Ok (repeat 0 (N.to_nat (cap + 1))))
    by (unfold utf8_decode, payload; by rewrite decode_zeros).
  rewrite <- Hlen in Hu.
  destruct (read_complete LittleEndian prefix payload [] [] Hl Hu) as [Hm _].
  rewrite Hd in Hm.
  specialize (H LittleEndian
                {| stdin := prefix ++ payload ++ []; stdout := [] |}
                (repeat 0 (N.to_nat (cap + 1)))).
  rewrite Hm in H. specialize (H (or_introl eq_refl)).
  unfold declared_length in H. cbn [stdin] in H.
  replace (take 4 (prefix ++ payload ++ [])) with prefix in H
    by (rewrite <- Hl at 1; by rewrite take_app_length).
  lia.
Qed.

(** ** Control dispatcher *)

Section Dispatcher.
Context {L : PyLib}.

Lemma is_literal_true v s : is_literal v s = true <-> v = JStr (lit s).
Proof.
  destruct v; cbn; try (split; [discriminate | congruence]).
  rewrite bool_decide_eq_true. split; congruence.
Qed.

Lemma start_http_server_running e h t port :
  server_thread h = Some t -> is_alive t = true ->
  start_http_server e h port = (h, true).
Proof. intros Ht Ha. unfold start_http_server. by rewrite Ht, Ha. Qed.

Lemma start_http_server_true e h port h' :
  start_http_server e h port = (h', true) ->
  exists t, server_thread h' = Some t /\ is_alive t = true.
Proof.
  unfold start_http_server.
  destruct (server_thread h) as [t|] eqn:Ht;
    [destruct (is_alive t) eqn:Ha|]; try (intros [= <-]; eauto; fail);
    destruct (spawn e port); intros [= <-]; cbn; eauto.
Qed.

Lemma handle_start_server e h d :
  dict_get d (lit "type") (JStr (lit "")) = JStr (lit "start_server") ->
  handle_message e h (JDict d)
  = let port := dict_get d (lit "port") (JInt 8765) in
    let (h', success) := start_http_server e h port in
    Ok (h', JDict [(lit "type", JStr (lit "server_started"));
                   (lit "success", JBool success);
                   (lit "port", port)]).
Proof. intros Ht. unfold handle_message. cbn [py_get]. by rewrite Ht. Qed.

(** C9.  While the server thread is alive, [start_server] changes
    nothing and answers [server_started] with [success: true] and the
    port of the message; and after a [start_server] that answered
    [success: true], an identical message gets the same answer and
    leaves the host as it was, even if the port could not be bound
    again, so that at most one thread was launched for the two. *)
Theorem start_server_idempotent d :
  dict_get d (lit "type") (JStr (lit "")) = JStr (lit "start_server") ->
  let answer success :=
    JDict [(lit "type", JStr (lit "server_started"));
           (lit "success", JBool success);
           (lit "port", dict_get d (lit "port") (JInt 8765))] in
  (forall e h t,
     server_thread h = Some t -> is_alive t = true ->
     handle_message e h (JDict d) = Ok (h, answer true))
  /\ (forall e1 e2 h0 h1,
        handle_message e1 h0 (JDict d) = Ok (h1, answer true) ->
        handle_message e2 h1 (JDict d) = Ok (h1, answer true)
        /\ (length (launched h1) <= S (length (launched h0)))%nat).
Proof.
  intros Ht answer.
  assert (A : forall e h t,
    server_thread h = Some t -> is_alive t = true ->
    handle_message e h (JDict d) = Ok (h, answer true)).
  { intros e h t Hs Ha. rewrite (handle_start_server e h d Ht). cbn zeta.
    by rewrite (start_http_server_running e h t _ Hs Ha). }
  split; [exact A|].
  intros e1 e2 h0 h1. rewrite (handle_start_server e1 h0 d Ht). cbn zeta.
  destruct (start_http_server e1 h0 (dict_get d (lit "port") (JInt 8765)))
    as [h' success] eqn:Es.
  intros [= -> ->].
  destruct (start_http_server_true _ _ _ _ Es) as (t & Hs & Ha).
  split; [by apply (A e2 h1 t)|].
  revert Es. unfold start_http_server.
  destruct (server_thread h0) as [t0|]; [destruct (is_alive t0)|];
    try destruct (spawn e1 _); intros [= <-]; cbn; rewrite ?length_app; cbn; lia.
Qed.

(** C2.  [stop_server] is answered [server_stopped] with
    [success: true], and the host is left as it was: a server thread
    that was alive stays alive. *)
Theorem stop_server_leaves_listener e h d :
  dict_get d (lit "type") (JStr (lit "")) = JStr (lit "stop_server") ->
  handle_message e h (JDict d)
  = Ok (h, JDict [(lit "type", JStr (lit "server_stopped"));
                  (lit "success", JBool true)]).
Proof. intros Ht. unfold handle_message. cbn [py_get]. by rewrite Ht. Qed.

End Dispatcher.

(** The first message starts the listener on port 9999; the second is
    answered while the port is taken. *)
Lemma start_server_idempotent_witness :
  @handle_message Sample.lib Sample.quiet new_host (JDict Sample.start_9999)
  = Ok ({| server_thread := server_thread Sample.serving; running := false;
           launched := launched Sample.serving |}, Sample.started_9999)
  /\ @handle_message Sample.lib Sample.port_in_use Sample.serving
       (JDict Sample.start_9999)
     = Ok (Sample.serving, Sample.started_9999).
Proof.
  split; [reflexivity|].
  apply (proj1 (@start_server_idempotent Sample.lib Sample.start_9999 eq_refl)
           Sample.port_in_use Sample.serving
           {| target_port := JInt 9999; is_alive := true |});
    reflexivity.
Defined.

(** The listener on port 9999 is still alive after [stop_server]. *)
Lemma stop_server_leaves_listener_witness :
  @handle_message Sample.lib Sample.quiet Sample.serving
    (JDict [(lit "type", JStr (lit "stop_server"))])
  = Ok (Sample.serving, JDict [(lit "type", JStr (lit "server_stopped"));
                        (lit "success", JBool true)])
  /\ (exists t, server_thread Sample.serving = Some t /\ is_alive t = true).
Proof.
  split.
  - apply (@stop_server_leaves_listener Sample.lib Sample.quiet Sample.serving
             [(lit "type", JStr (lit "stop_server"))]). reflexivity.
  - eexists. split; reflexivity.
Defined.

(** ** The control loop *)

Section Loop.
Context {L : PyLib}.
Variable order : byteorder.

Lemma respond_invalid_json e h text :
  respond e h (Raise (JSONDecodeError text))
  = (h, JDict [(lit "type", JStr (lit "error"));
               (lit "error", JStr (lit "Invalid JSON format"))]).
Proof. reflexivity. Qed.

Lemma respond_not_a_dict e h v :
  (forall d, v <> JDict d) ->
  respond e h (Ok v)
  = (h, JDict [(lit "type", JStr (lit "error"));
               (lit "error", JStr (exn_str (AttributeError v)))]).
Proof. intros H. destruct v; try reflexivity. by destruct (H d). Qed.

Lemma respond_unknown_type e h d :
  known_type (dict_get d (lit "type") (JStr (lit ""))) = false ->
  respond e h (Ok (JDict d))
  = (h, JDict [(lit "type", JStr (lit "unknown"));
               (lit "error",
                JStr (lit "Unknown message type: "
                      ++ format_value (dict_get d (lit "type") (JStr (lit "")))))]).
Proof.
  unfold known_type. intros H.
  apply orb_false_elim in H as [H H3]. apply orb_false_elim in H as [H1 H2].
  unfold respond, handle_message. cbn [py_get]. by rewrite H1, H2, H3.
Qed.

Lemma loop_turn_complete e h prefix payload rest out message encoded :
  length prefix = 4%nat ->
  unpack_I order prefix = N.of_nat (length payload) ->
  utf8_decode payload = Ok message ->
  utf8_encode (json_dumps true (snd (respond e h (json_loads message))))
  = Ok encoded ->
  N.of_nat (length encoded) < 2 ^ 32 ->
  exists reply_prefix,
    pack_I order (N.of_nat (length encoded)) = Ok reply_prefix
    /\ loop_turn order e h {| stdin := prefix ++ payload ++ rest; stdout := out |}
       = (Continue (fst (respond e h (json_loads message))),
          {| stdin := rest; stdout := out ++ reply_prefix ++ encoded |}).
Proof.
  intros Hl Hu Hd He Hn. unfold loop_turn.
  destruct (read_complete order prefix payload rest out Hl Hu) as [-> _].
  rewrite Hd.
  destruct (respond e h (json_loads message)) as [h' reply]. cbn [fst snd] in *.
  destruct (write_frame_ok order _ encoded {| stdin := rest; stdout := out |}
              He Hn) as (reply_prefix & Hp & ->).
  by exists reply_prefix.
Qed.

Lemma respond_malformed_state e h loaded :
  malformed loaded -> fst (respond e h loaded) = h.
Proof.
  destruct loaded as [v|ex]; cbn [malformed].
  - destruct v; try (intros _; by rewrite respond_not_a_dict).
    intros Hk. by rewrite respond_unknown_type.
  - by destruct ex.
Qed.

(** C5, as amended.  For a frame whose payload is UTF-8 and whose reply
    can be written: text that is no JSON is answered [error] with
    "Invalid JSON format"; JSON that is no object is answered [error]
    with the text of the AttributeError; an object whose [type] is
    absent or not a known one is answered [unknown] with "Unknown
    message type: " and the tag; and in each of these cases the turn of
    the loop consumes the frame, appends to the output exactly one
    frame, the length prefix and the UTF-8 octets of the JSON text of
    that reply, leaves the host unchanged and goes on to the next
    frame. *)
Theorem malformed_control_frame e h prefix payload rest out message encoded :
  length prefix = 4%nat ->
  unpack_I order prefix = N.of_nat (length payload) ->
  utf8_decode payload = Ok message ->
  utf8_encode (json_dumps true (snd (respond e h (json_loads message))))
  = Ok encoded ->
  N.of_nat (length encoded) < 2 ^ 32 ->
  let reply := snd (respond e h (json_loads message)) in
  ((exists text, json_loads message = Raise (JSONDecodeError text)) ->
   reply = JDict [(lit "type", JStr (lit "error"));
                  (lit "error", JStr (lit "Invalid JSON format"))])
  /\ (forall v,
        json_loads message = Ok v -> (forall d, v <> JDict d) ->
        reply = JDict [(lit "type", JStr (lit "error"));
                       (lit "error", JStr (exn_str (AttributeError v)))])
  /\ (forall d,
        json_loads message = Ok (JDict d) ->
        known_type (dict_get d (lit "type") (JStr (lit ""))) = false ->
        reply = JDict [(lit "type", JStr (lit "unknown"));
                       (lit "error",
                        JStr (lit "Unknown message type: "
                              ++ format_value
                                   (dict_get d (lit "type") (JStr (lit "")))))])
  /\ (malformed (json_loads message) ->
      exists reply_prefix,
        pack_I order (N.of_nat (length encoded)) = Ok reply_prefix
        /\ loop_turn order e h
             {| stdin := prefix ++ payload ++ rest; stdout := out |}
           = (Continue h,
              {| stdin := rest; stdout := out ++ reply_prefix ++ encoded |})).
Proof.
  intros Hl Hu Hd He Hn reply. subst reply.
  split; [|split; [|split]].
  - intros [text ->]. reflexivity.
  - intros v -> Hv. by rewrite respond_not_a_dict.
  - intros d -> Hk. by rewrite respond_unknown_type.
  - intros Hm.
    destruct (loop_turn_complete e h prefix payload rest out message encoded
                Hl Hu Hd He Hn) as (reply_prefix & Hp & Ht).
    rewrite Ht, (respond_malformed_state e h _ Hm). eauto.
Qed.

End Loop.

(** The payload [nonsense]: the reply has 49 octets. *)
Lemma malformed_control_frame_witness :
  snd (@respond Sample.lib Sample.quiet new_host
         (@json_loads Sample.lib (lit "nonsense")))
  = Sample.invalid_reply
  /\ exists reply_prefix,
       pack_I LittleEndian
         (N.of_nat
            (length (List.map byte_of_N (Sample.dumps Sample.invalid_reply))))
       = Ok reply_prefix
       /\ @loop_turn Sample.lib LittleEndian Sample.quiet new_host
            {| stdin := [x08; x00; x00; x00]
                        ++ [x6e; x6f; x6e; x73; x65; x6e; x73; x65] ++ [];
               stdout := [] |}
          = (Continue new_host,
             {| stdin := [];
                stdout :=
                  [] ++ reply_prefix
                  ++ List.map byte_of_N (Sample.dumps Sample.invalid_reply) |}).
Proof.
  pose proof (@malformed_control_frame Sample.lib LittleEndian Sample.quiet
                new_host [x08; x00; x00; x00]
                [x6e; x6f; x6e; x73; x65; x6e; x73; x65] [] []
                (lit "nonsense")
                (List.map byte_of_N (Sample.dumps Sample.invalid_reply))
                eq_refl eq_refl eq_refl eq_refl eq_refl) as (H1 & _ & _ & H4).
  split.
  - apply H1. eexists. reflexivity.
  - apply H4. exact I.
Defined.

(** C5 as stated fails: the object [{}] has no [type], and its reply has
    type [unknown], not [error]. *)
Lemma missing_type_gets_unknown :
  @json_loads Sample.lib [0x7b; 0x7d] = Ok (JDict [])
  /\ malformed (Ok (JDict []))
  /\ @respond Sample.lib Sample.quiet new_host (Ok (JDict []))
     = (new_host, JDict Sample.unknown_reply)
  /\ dict_get Sample.unknown_reply (lit "type") JNone <> JStr (lit "error")
  /\ @loop_turn Sample.lib LittleEndian Sample.quiet new_host
       {| stdin := [x02; x00; x00; x00; x7b; x7d]; stdout := [] |}
     = (Continue new_host,
        {| stdin := [];
           stdout := Sample.frame LittleEndian
                       (Sample.dumps (JDict Sample.unknown_reply)) |}).
Proof.
  split; [reflexivity|]. split; [reflexivity|].
  split; [reflexivity|]. split; [discriminate|]. reflexivity.
Qed.

(** ** HTTP front door *)

Section FrontDoor.
Context {L : PyLib}.
Variable order : byteorder.

Lemma send_to_extension_returns data s :
  send_to_extension order data s
  = match exchange order data s with
    | (Ok v, s') => (Ok v, s')
    | (Raise ex, s') => (Ok (communication_error ex), s')
    end.
Proof.
  unfold send_to_extension, try_except.
  by destruct (exchange order data s) as [[v|ex] s'].
Qed.

Lemma send_to_extension_total data s :
  exists v s', send_to_extension order data s = (Ok v, s').
Proof.
  rewrite send_to_extension_returns.
  destruct (exchange order data s) as [[v|ex] s']; eauto.
Qed.

Lemma relay_dict d :
  relay (JDict d)
  = send_json_response (dict_get d (lit "status") (JInt 200))
      (dict_get d (lit "body") (JDict [])).
Proof. reflexivity. Qed.

Lemma relay_communication_error ex :
  relay (communication_error ex)
  = send_json_response (JInt 503)
      (JDict [(lit "error",
               JStr (lit "Extension communication error: " ++ exn_str ex))]).
Proof. reflexivity. Qed.

(** What the [try] block and its handler make of the value that
    [send_to_extension] returns. *)
Lemma forward_by_unfold {A} (send : json -> json -> result A) request_data s :
  forward_by order send request_data s
  = match send_to_extension order request_data s with
    | (Ok response, s') =>
        match relay_by send response with
        | Ok r => (Ok r, s')
        | Raise ex =>
            (send (JInt 500) (JDict [(lit "error", JStr (exn_str ex))]), s')
        end
    | (Raise ex, s') =>
        (send (JInt 500) (JDict [(lit "error", JStr (exn_str ex))]), s')
    end.
Proof.
  unfold forward_by, try_except, try_forward_by, bind, lift.
  destruct (send_to_extension order request_data s) as [[v|ex] s']; [|done].
  by destruct (relay_by send v).
Qed.

Lemma forward_unfold request_data s :
  forward order request_data s
  = match send_to_extension order request_data s with
    | (Ok response, s') =>
        match relay response with
        | Ok r => (Ok r, s')
        | Raise ex =>
            (send_json_response (JInt 500)
               (JDict [(lit "error", JStr (exn_str ex))]), s')
        end
    | (Raise ex, s') =>
        (send_json_response (JInt 500)
           (JDict [(lit "error", JStr (exn_str ex))]), s')
    end.
Proof. apply forward_by_unfold. Qed.


Lemma send_json_response_int z data b :
  utf8_encode (json_dumps false data) = Ok b ->
  send_json_response (JInt z) data
  = Ok {| status := z;
          sent_headers :=
            (lit "Content-Type", lit "application/json; charset=utf-8")
            :: cors_headers ++ [(lit "Content-Length", decimal (length b))];
          body := b |}.
Proof. intros H. unfold send_json_response. by rewrite H. Qed.

Lemma http09_true req :
  request_version req = lit "HTTP/0.9" -> http09 req = true.
Proof. intros H. unfold http09. by rewrite bool_decide_eq_true_2. Qed.

Lemma http09_false req :
  request_version req <> lit "HTTP/0.9" -> http09 req = false.
Proof. intros H. unfold http09. by rewrite bool_decide_eq_false_2. Qed.

(** With a version other than [HTTP/0.9] the response goes out with its
    head. *)
Lemma send_json_response_to_head req code data :
  http09 req = false ->
  send_json_response_to req code data
  = match send_json_response code data with
    | Ok r => Ok (WithHead r)
    | Raise ex => Raise ex
    end.
Proof.
  intros H. unfold send_json_response_to. rewrite H.
  by destruct (send_json_response code data).
Qed.

(** Under [HTTP/0.9] the status code is not looked at. *)
Lemma send_json_response_to_body req code data :
  http09 req = true ->
  send_json_response_to req code data
  = match utf8_encode (json_dumps false data) with
    | Ok b => Ok (BodyOnly b)
    | Raise ex => Raise ex
    end.
Proof.
  intros H. unfold send_json_response_to. rewrite H.
  by destruct (utf8_encode (json_dumps false data)).
Qed.



(** A request of a version other than [HTTP/0.9] is forwarded as
    [forward] says, and the answer goes out with its head. *)
Lemma forward_by_head req request_data s :
  http09 req = false ->
  forward_by order (send_json_response_to req) request_data s
  = match forward order request_data s with
    | (Ok r, s') => (Ok (WithHead r), s')
    | (Raise ex, s') => (Raise ex, s')
    end.
Proof.
  intros H. rewrite forward_by_unfold, forward_unfold.
  destruct (send_to_extension order request_data s) as [[v|ex] s'].
  - unfold relay, relay_by.
    destruct (py_get v (lit "status") (JInt 200)) as [code|ex].
    + destruct (py_get v (lit "body") (JDict [])) as [data|ex].
      * rewrite send_json_response_to_head by done.
        destruct (send_json_response code data) as [r|ex]; [done|].
        rewrite send_json_response_to_head by done.
        by destruct (send_json_response (JInt 500) _).
      * rewrite send_json_response_to_head by done.
        by destruct (send_json_response (JInt 500) _).
    + rewrite send_json_response_to_head by done.
      by destruct (send_json_response (JInt 500) _).
  - rewrite send_json_response_to_head by done.
    by destruct (send_json_response (JInt 500) _).
Qed.




(** C6.  When [int] rejects the Content-Length header of a POST, the
    ValueError leaves [do_POST] before the [try] of line 50: no response
    is built, neither the 500 nor any other, and nothing is forwarded. *)
Theorem post_content_length_escapes req s ex :
  content_length req = Raise ex ->
  do_POST order req s = (Raise ex, s).
Proof. intros H. unfold do_POST, bind, lift. by rewrite H. Qed.

(** The three answers of [forward]: the peer's status and body, the 503
    of a failed exchange, the 500 of a value that cannot be relayed. *)
Lemma forward_answers request_data s :
  forward order request_data s
  = match exchange order request_data s with
    | (Ok (JDict d), s') =>
        match send_json_response (dict_get d (lit "status") (JInt 200))
                (dict_get d (lit "body") (JDict [])) with
        | Ok r => (Ok r, s')
        | Raise ex =>
            (send_json_response (JInt 500)
               (JDict [(lit "error", JStr (exn_str ex))]), s')
        end
    | (Ok v, s') =>
        (send_json_response (JInt 500)
           (JDict [(lit "error", JStr (exn_str (AttributeError v)))]), s')
    | (Raise ex, s') =>
        match send_json_response (JInt 503)
                (JDict [(lit "error",
                         JStr (lit "Extension communication error: "
                               ++ exn_str ex))]) with
        | Ok r => (Ok r, s')
        | Raise ex' =>
            (send_json_response (JInt 500)
               (JDict [(lit "error", JStr (exn_str ex'))]), s')
        end
    end.
Proof.
  rewrite forward_unfold, send_to_extension_returns.
  destruct (exchange order request_data s) as [[v|ex] s']; [|done].
  by destruct v.
Qed.

(** Once the body is read, [do_POST] is its [try] block. *)
Lemma do_POST_read req n post_data s :
  content_length req = Ok n ->
  rfile_read n req = Ok post_data ->
  do_POST order req s
  = forward_by order (send_json_response_to req)
      (post_envelope req post_data) s.
Proof. intros Hn Hr. unfold do_POST, bind, lift. by rewrite Hn, Hr. Qed.

(** C10.  Whatever the octets of the body, the envelope of a POST is
    built, its [body] being the lenient decoding of the octets; that
    decoding encodes to what is left of the octets after some are
    dropped, and is the strict decoding when there is one.  Once
    [read] has returned the octets, [do_POST] sends the envelope to the
    peer and answers with what the peer returned; it takes the 500
    branch only when relaying that value raises, which happens only
    when the value is no object, when its [body] cannot be encoded or
    when its [status] cannot be formatted: never because of the octets
    of the request body. *)
Theorem post_body_is_decoded_leniently req post_data :
  dict_get (match post_envelope req post_data with JDict d => d | _ => [] end)
    (lit "body") JNone
  = JStr (utf8_decode_ignore post_data)
  /\ (exists kept,
        utf8_encode (utf8_decode_ignore post_data) = Ok kept
        /\ sublist kept post_data)
  /\ (forall text,
        utf8_decode post_data = Ok text -> utf8_decode_ignore post_data = text)
  /\ (forall n s,
        content_length req = Ok n ->
        rfile_read n req = Ok post_data ->
        exists response s',
          send_to_extension order (post_envelope req post_data) s
          = (Ok response, s')
          /\ do_POST order req s
             = (match relay_by (send_json_response_to req) response with
                | Ok answer => Ok answer
                | Raise ex =>
                    send_json_response_to req (JInt 500)
                      (JDict [(lit "error", JStr (exn_str ex))])
                end, s'))
  /\ (forall response ex,
        relay_by (send_json_response_to req) response = Raise ex ->
        ((forall d, response <> JDict d) /\ ex = AttributeError response)
        \/ (exists d,
              response = JDict d
              /\ (utf8_encode
                    (json_dumps false (dict_get d (lit "body") (JDict [])))
                  = Raise ex
                  \/ status_of (dict_get d (lit "status") (JInt 200))
                     = Raise ex))).
Proof.
  split; [reflexivity|]. split; [|split; [|split]].
  - destruct (ignore_keeps post_data DStart [] eq_refl) as (s & kept & Hd & He & Hs).
    exists kept. unfold utf8_decode_ignore, utf8_encode. by rewrite Hd, He.
  - intros text. unfold utf8_decode, utf8_decode_ignore.
    destruct (decode_from Strict DStart post_data) as [t|] eqn:E; [|discriminate].
    intros [= <-]. by rewrite (strict_ignore _ _ _ E).
  - intros n s Hn Hr. rewrite (do_POST_read _ _ _ _ Hn Hr), forward_by_unfold.
    destruct (send_to_extension_total (post_envelope req post_data) s)
      as (v & s1 & ->).
    exists v, s1. split; [done|].
    by destruct (relay_by (send_json_response_to req) v).
  - intros response ex. unfold relay_by.
    destruct response as [| | | | | |d];
      try (cbn [py_get]; intros [= <-]; left; split; [intros d|]; done).
    cbn [py_get]. intros H. right. exists d. split; [done|].
    unfold send_json_response_to, send_json_response in H.
    destruct (http09 req).
    + destruct (utf8_encode _); [discriminate|]. left. congruence.
    + destruct (utf8_encode _); [|left; congruence].
      destruct (status_of _); [discriminate|]. right. congruence.
Qed.

End FrontDoor.



(** A POST with [Content-Length: abc]. *)
Lemma post_content_length_escapes_witness :
  @do_POST Sample.lib LittleEndian Sample.post_bad_length
    {| stdin := []; stdout := [] |}
  = (Raise (ValueError (lit "abc")), {| stdin := []; stdout := [] |}).
Proof.
  apply (@post_content_length_escapes Sample.lib LittleEndian
           Sample.post_bad_length {| stdin := []; stdout := [] |}
           (ValueError (lit "abc"))).
  reflexivity.
Defined.

(** The body [41 ff c3 42] is not UTF-8 and decodes to [AB]; the peer
    answers 204, and so does [do_POST]. *)
Lemma post_body_is_decoded_leniently_witness :
  utf8_decode (rfile Sample.post_bad_body)
  = Raise (UnicodeDecodeError (rfile Sample.post_bad_body))
  /\ utf8_decode_ignore (rfile Sample.post_bad_body) = [0x41; 0x42]
  /\ (exists kept,
        utf8_encode (utf8_decode_ignore (rfile Sample.post_bad_body)) = Ok kept
        /\ sublist kept (rfile Sample.post_bad_body))
  /\ (exists response s',
        @send_to_extension Sample.lib LittleEndian
          (post_envelope Sample.post_bad_body (rfile Sample.post_bad_body))
          Vectors.peer_answers
        = (Ok response, s')
        /\ @do_POST Sample.lib LittleEndian Sample.post_bad_body
             Vectors.peer_answers
           = (match relay_by (@send_json_response_to Sample.lib Sample.post_bad_body)
                      response with
              | Ok answer => Ok answer
              | Raise ex =>
                  @send_json_response_to Sample.lib Sample.post_bad_body
                    (JInt 500)
                    (JDict [(lit "error", JStr (@exn_str Sample.lib ex))])
              end, s'))
  /\ @do_POST Sample.lib LittleEndian Sample.post_bad_body Vectors.peer_answers
     = (Ok (WithHead (json_response 204 [x7b; x7d])),
        {| stdin := []; stdout := Vectors.post_frame |}).
Proof.
  destruct (@post_body_is_decoded_leniently Sample.lib LittleEndian
              Sample.post_bad_body (rfile Sample.post_bad_body))
    as (_ & Hk & _ & Hp & _).
  split; [reflexivity|]. split; [reflexivity|]. split; [exact Hk|].
  split; [|reflexivity].
  apply (Hp 4%Z); reflexivity.
Defined.

(** ** The two readers *)

Section Threads.
Context {L : PyLib}.
Variable order : byteorder.

Lemma send_to_extension_short_length data s u s1 :
  write_frame order (json_dumps true data) s = (Ok u, s1) ->
  (length (take 4 (stdin s1)) <? 4)%nat = true ->
  send_to_extension order data s
  = (Ok (communication_error
           (Exception (lit "Failed to read response length from extension"))),
     {| stdin := drop 4 (stdin s1); stdout := stdout s1 |}).
Proof.
  intros Ew El.
  unfold send_to_extension, exchange, try_except, bind, read_response, bind,
    stdin_read, stream_read.
  rewrite Ew. cbv beta iota zeta. by rewrite El.
Qed.

(** X16.  Left alone, the server thread computes [send_to_extension]:
    its three steps return what the function returns and leave the
    streams as the function leaves them, without touching the loop or
    the host. *)
Lemma server_thread_alone e w data :
  handler_at w = HandlerWrite data ->
  let w' := run order e [ServerThread; ServerThread; ServerThread] w in
  exists r,
    handler_at w' = HandlerReturned r
    /\ send_to_extension order data (streams w) = (Ok r, streams w')
    /\ loop_at w' = loop_at w /\ the_host w' = the_host w.
Proof.
  intros Hw. cbn [run step].
  destruct (write_frame order (json_dumps true data) (streams w))
    as [[u|ex] s1] eqn:Ew.
  2:{ assert (E1 : server_step order w
                   = {| streams := s1; the_host := the_host w;
                        loop_at := loop_at w;
                        handler_at := HandlerReturned (communication_error ex);
                        trace := trace w |})
        by (unfold server_step; by rewrite Hw, Ew).
      rewrite E1. cbn [server_step handler_at].
      eexists. split; [reflexivity|]. split; [|done].
      unfold send_to_extension, exchange, try_except, bind. by rewrite Ew. }
  assert (E1 : server_step order w
               = {| streams := s1; the_host := the_host w; loop_at := loop_at w;
                    handler_at := HandlerReadLength; trace := trace w |})
    by (unfold server_step; by rewrite Hw, Ew).
  rewrite E1. clear E1.
  destruct (length (take 4 (stdin s1)) <? 4)%nat eqn:El.
  { match goal with |- context [server_step order ?x] =>
      assert (E2 : server_step order x
               = {| streams := {| stdin := drop 4 (stdin s1); stdout := stdout s1 |};
                    the_host := the_host w; loop_at := loop_at w;
                    handler_at :=
                      HandlerReturned
                        (communication_error
                           (Exception
                              (lit "Failed to read response length from extension")));
                    trace := trace w |})
        by (unfold server_step, stdin_read, stream_read;
            cbn [handler_at streams]; by rewrite El)
    end.
    rewrite E2. cbn [server_step handler_at].
    eexists. split; [reflexivity|]. split; [|done].
    by rewrite (send_to_extension_short_length data _ u s1 Ew El). }
  set (n := unpack_I order (take 4 (stdin s1))).
  match goal with |- context [server_step order ?x] =>
    assert (E2 : server_step order x
             = {| streams := {| stdin := drop 4 (stdin s1); stdout := stdout s1 |};
                  the_host := the_host w; loop_at := loop_at w;
                  handler_at := HandlerReadResponse n;
                  trace := trace w |})
      by (unfold server_step, stdin_read, stream_read;
          cbn [handler_at streams]; by rewrite El)
  end.
  rewrite E2. clear E2.
  unfold send_to_extension, exchange, try_except, bind, read_response, bind,
    stdin_read, stream_read, raise, lift, ret.
  rewrite Ew. cbv beta iota zeta. rewrite El. fold n.
  unfold server_step, stdin_read, stream_read, bind, lift.
  cbn [handler_at streams stdin stdout the_host loop_at trace].
  set (response_bytes := take (N.to_nat n) (drop 4 (stdin s1))).
  destruct (N.of_nat (length response_bytes) <? n).
  { eexists. repeat split. }
  destruct (utf8_decode response_bytes) as [response|ex].
  2:{ eexists. repeat split. }
  destruct (json_loads response) as [r|ex]; eexists; repeat split.
Qed.

(** X17.  Left alone, the main thread computes one turn of the loop:
    its two steps leave the host and the streams as [loop_turn] does and
    are back at line 187 exactly when the turn continues. *)
Lemma main_thread_alone e w :
  loop_at w = LoopReadLength ->
  let w' := run order e [MainThread; MainThread] w in
  handler_at w' = handler_at w
  /\ match loop_turn order e (the_host w) (streams w) with
     | (Continue h', s') =>
         loop_at w' = LoopReadLength /\ the_host w' = h' /\ streams w' = s'
     | (Break, s') =>
         loop_at w' = LoopExited /\ the_host w' = the_host w /\ streams w' = s'
     | (Escaped h' _, s') =>
         loop_at w' = LoopExited /\ the_host w' = h' /\ streams w' = s'
     end.
Proof.
  intros Hw. cbn [run step].
  set (s1 := {| stdin := drop 4 (stdin (streams w)); stdout := stdout (streams w) |}).
  unfold loop_turn, read_message, bind, ret, lift, stdin_read, stream_read.
  cbv beta iota zeta. fold s1.
  destruct (length (take 4 (stdin (streams w))) <? 4)%nat eqn:El.
  { assert (E1 : main_step order e w
                 = {| streams := s1; the_host := the_host w;
                      loop_at := LoopExited; handler_at := handler_at w;
                      trace := trace w |})
      by (unfold main_step, stdin_read, stream_read; by rewrite Hw, El).
    rewrite E1. cbn [main_step loop_at handler_at the_host streams].
    repeat split. }
  set (n := unpack_I order (take 4 (stdin (streams w)))).
  assert (E1 : main_step order e w
               = {| streams := s1; the_host := the_host w;
                    loop_at := LoopReadMessage n; handler_at := handler_at w;
                    trace := trace w |})
    by (unfold main_step, stdin_read, stream_read; by rewrite Hw, El).
  rewrite E1. clear E1.
  unfold main_step, stdin_read, stream_read.
  cbn [loop_at streams stdin stdout handler_at the_host trace].
  subst s1. cbn [stdin stdout].
  set (message_bytes := take (N.to_nat n) (drop 4 (stdin (streams w)))).
  destruct (N.of_nat (length message_bytes) <? n); [repeat split|].
  destruct (utf8_decode message_bytes) as [message|ex]; [|repeat split].
  destruct (respond e (the_host w) (json_loads message)) as [h' reply].
  match goal with
  | |- context [write_frame order (json_dumps true reply) ?s] =>
      destruct (write_frame order (json_dumps true reply) s) as [[[]|ex] s2]
  end; repeat split.
Qed.

End Threads.

(** C1.  Once the server thread has written its request, it and the
    main thread are both about to read standard input.  If the main
    thread takes the two reads, the peer's response is handled as a
    control message and answered [unknown] while the exchange is still
    pending, and nothing is left for [send_to_extension] to read; if the
    reads alternate, [send_to_extension] takes four octets of the
    payload for a length and the loop ends on a short frame. *)
Theorem response_taken_by_control_loop :
  (exchange_pending (Sample.after [ServerThread]) = true
   /\ reads_next MainThread (Sample.after [ServerThread]) = true
   /\ reads_next ServerThread (Sample.after [ServerThread]) = true)
  /\ (exchange_pending (Sample.after [ServerThread; MainThread; MainThread])
      = true
      /\ stdin (streams (Sample.after [ServerThread; MainThread; MainThread]))
         = []
      /\ exists payload,
           utf8_encode (Sample.dumps Sample.peer_response) = Ok payload
           /\ trace (Sample.after [ServerThread; MainThread; MainThread])
              = [Dispatched payload (JDict Sample.unknown_reply)])
  /\ (handler_at
        (Sample.after [ServerThread; MainThread; ServerThread; MainThread])
      = HandlerReadResponse 1953702523
      /\ loop_at
           (Sample.after [ServerThread; MainThread; ServerThread; MainThread])
         = LoopExited
      /\ trace
           (Sample.after [ServerThread; MainThread; ServerThread; MainThread])
         = []).
Proof.
  vm_compute. repeat split. eexists. split; reflexivity.
Qed.

(** * Further properties *)

(** ** What the dispatcher keeps *)

Section Keeping.
Context {L : PyLib}.
Variable order : byteorder.

Lemma start_http_server_cases e h port :
  (exists t, server_thread h = Some t /\ is_alive t = true
             /\ start_http_server e h port = (h, true))
  \/ ((forall t, server_thread h = Some t -> is_alive t = false)
      /\ start_http_server e h port
         = match spawn e port with
           | StartRaises =>
               ({| server_thread := Some {| target_port := port; is_alive := false |};
                   running := running h; launched := launched h |}, false)
           | ThreadExits =>
               ({| server_thread := Some {| target_port := port; is_alive := false |};
                   running := running h; launched := launched h ++ [port] |}, false)
           | ThreadServes =>
               ({| server_thread := Some {| target_port := port; is_alive := true |};
                   running := running h; launched := launched h ++ [port] |}, true)
           end).
Proof.
  unfold start_http_server.
  destruct (server_thread h) as [t|] eqn:Ht; [destruct (is_alive t) eqn:Ha|].
  - left. eauto.
  - right. split; [|done]. intros t' [= <-]. done.
  - right. split; [|done]. intros t' [=].
Qed.

(** X1.  The flag that [start_http_server] returns says whether the
    thread of the host is alive afterwards; it is [True] exactly when a
    thread was alive already or the new one serves.  With a live thread
    the host is unchanged; without one exactly one thread is launched on
    the port, unless [start()] itself raised. *)
Theorem start_http_server_success e h port h' success :
  start_http_server e h port = (h', success) ->
  success = alive h'
  /\ (success = true <->
      alive h = true
      \/ match spawn e port with ThreadServes => True | _ => False end)
  /\ running h' = running h
  /\ (if alive h then h' = h
      else launched h'
           = launched h
             ++ match spawn e port with StartRaises => [] | _ => [port] end).
Proof.
  unfold alive.
  destruct (start_http_server_cases e h port)
    as [(t & Ht & Ha & ->)|[Hd ->]].
  - intros [= <- <-]. rewrite Ht, Ha. repeat split; auto.
  - assert (Hf : match server_thread h with
                 | Some t => is_alive t
                 | None => false
                 end = false).
    { destruct (server_thread h) as [t|]; [by apply Hd | done]. }
    rewrite Hf.
    destruct (spawn e port); intros [= <- <-]; cbn;
      rewrite ?app_nil_r; repeat split; auto; try tauto;
      try (intros [?|?]; done).
Qed.


Lemma handle_message_not_dict e h data :
  (forall d, data <> JDict d) ->
  handle_message e h data = Raise (AttributeError data).
Proof. intros H. destruct data; try reflexivity. by destruct (H d). Qed.

(** X2.  [handle_message] raises only on a value that is no object, and
    then the AttributeError of [data.get].  Otherwise its reply is an
    object whose [type] is one of [server_started], [server_stopped],
    [pong], [unknown]; [running] is unchanged; at most one thread is
    launched; and the host changes only for a [start_server] message
    that found no live thread. *)
Theorem handle_message_keeps e h data :
  match handle_message e h data with
  | Raise ex => (forall d, data <> JDict d) /\ ex = AttributeError data
  | Ok (h', reply) =>
      (exists d fields,
         data = JDict d /\ reply = JDict fields
         /\ exists t, dict_get fields (lit "type") JNone = JStr t
                      /\ In t reply_types)
      /\ running h' = running h
      /\ (exists more,
            launched h' = launched h ++ more /\ (length more <= 1)%nat)
      /\ (h' <> h ->
          py_get data (lit "type") (JStr (lit "")) = Ok (JStr (lit "start_server"))
          /\ alive h = false)
  end.
Proof.
  destruct data as [| | | | | |d];
    try (split; [intros d; discriminate | reflexivity]).
  unfold handle_message. cbn [py_get].
  destruct (is_literal (dict_get d (lit "type") (JStr (lit ""))) "start_server")
    eqn:E1.
  - destruct (start_http_server e h (dict_get d (lit "port") (JInt 8765)))
      as [h' success] eqn:Es.
    apply start_http_server_success in Es as (_ & _ & Hr & Hl).
    split; [|split; [done|split]].
    + eexists _, _. split; [done|]. split; [done|].
      exists (lit "server_started"). split; [reflexivity | by left].
    + destruct (alive h).
      * subst h'. exists []. split; [by rewrite app_nil_r | cbn; lia].
      * eexists. split; [exact Hl|]. destruct (spawn e _); cbn; lia.
    + intros Hne. split.
      * f_equal. destruct (dict_get d (lit "type") (JStr (lit "")));
          try discriminate. cbn in E1. apply bool_decide_eq_true in E1.
        by subst.
      * destruct (alive h); [exfalso; apply Hne; exact Hl | done].
  - destruct (is_literal _ "stop_server");
      [|destruct (is_literal _ "ping")];
      (split; [|split; [done|split;
         [exists []; split; [by rewrite app_nil_r | cbn; lia]
         | by intros []]]]);
      eexists _, _; (split; [done|]); (split; [done|]).
    + exists (lit "server_stopped"). split; [reflexivity | right; by left].
    + exists (lit "pong"). split; [reflexivity | right; right; by left].
    + exists (lit "unknown"). split; [reflexivity | right; right; right; by left].
Qed.

Lemma respond_keeps e h loaded h' reply :
  respond e h loaded = (h', reply) ->
  running h' = running h
  /\ exists more, launched h' = launched h ++ more.
Proof.
  unfold respond.
  assert (Same : running h = running h /\ exists more, launched h = launched h ++ more)
    by (split; [done | exists []; by rewrite app_nil_r]).
  destruct loaded as [data|ex].
  - pose proof (handle_message_keeps e h data) as K.
    destruct (handle_message e h data) as [[h1 r1]|ex].
    + intros [= <- <-]. destruct K as (_ & Hr & (more & Hm & _) & _). eauto.
    + destruct ex; intros [= <- <-]; exact Same.
  - destruct ex; intros [= <- <-]; exact Same.
Qed.

End Keeping.

(** The port is taken: the answer is [False], the thread is dead, and
    one launch is recorded. *)
Lemma start_http_server_success_witness :
  false = alive (fst (start_http_server Sample.port_in_use new_host (JInt 9999)))
  /\ launched (fst (start_http_server Sample.port_in_use new_host (JInt 9999)))
     = [JInt 9999].
Proof.
  destruct (start_http_server_success Sample.port_in_use new_host (JInt 9999)
              (fst (start_http_server Sample.port_in_use new_host (JInt 9999)))
              false eq_refl) as (H1 & _ & _ & H4).
  split; [exact H1 | exact H4].
Defined.

(** ** Runs of the loop *)

Section LoopRuns.
Context {L : PyLib}.
Variable order : byteorder.

Lemma write_frame_io payload s :
  match write_frame order payload s with
  | (Ok _, s') =>
      stdin s' = stdin s
      /\ exists f, stdout s' = stdout s ++ f /\ (4 <= length f)%nat
  | (Raise _, s') => s' = s
  end.
Proof.
  unfold write_frame, bind, lift, stdout_write.
  destruct (utf8_encode payload) as [encoded|]; [|done].
  destruct (pack_I order (N.of_nat (length encoded))) as [prefix|] eqn:Ep; [|done].
  cbn [stdin stdout]. split; [done|]. exists (prefix ++ encoded).
  rewrite <- app_assoc, length_app, (pack_I_length _ _ _ Ep). split; [done|lia].
Qed.

Lemma read_message_io s :
  match read_message order s with
  | (r, s') =>
      stdout s' = stdout s
      /\ exists consumed,
           stdin s = consumed ++ stdin s'
           /\ match r with
              | Ok (Some _) => (4 <= length consumed)%nat
              | _ => True
              end
  end.
Proof.
  unfold read_message, bind, ret, lift, stdin_read, stream_read.
  cbv beta iota zeta. cbn [stdin stdout].
  destruct (Nat.ltb_spec (length (take 4 (stdin s))) 4) as [Hl|Hl].
  { cbn [stdin stdout]. split; [done|]. exists (take 4 (stdin s)).
    by rewrite take_drop. }
  set (n := N.to_nat (unpack_I order (take 4 (stdin s)))).
  assert (E : stdin s = (take 4 (stdin s) ++ take n (drop 4 (stdin s)))
                        ++ drop n (drop 4 (stdin s)))
    by (by rewrite <- app_assoc, !take_drop).
  assert (H4 : (4 <= length (take 4 (stdin s) ++ take n (drop 4 (stdin s))))%nat)
    by (rewrite length_app; lia).
  match goal with |- context [N.ltb ?a ?b] => destruct (N.ltb a b) end.
  { cbn [stdin stdout]. split; [done|]. eauto. }
  match goal with
  | |- context [utf8_decode ?x] => destruct (utf8_decode x)
  end; cbv beta iota zeta; cbn [stdin stdout]; (split; [done|]); eauto.
Qed.

(** What one turn of the loop does to the streams and to the host. *)
Lemma loop_turn_io e h s :
  match loop_turn order e h s with
  | (t, s') =>
      (exists consumed, stdin s = consumed ++ stdin s')
      /\ (exists written, stdout s' = stdout s ++ written)
      /\ match t with
         | Continue h' =>
             (length (stdin s') + 4 <= length (stdin s))%nat
             /\ running h' = running h
             /\ exists more, launched h' = launched h ++ more
         | Break => True
         | Escaped h' _ =>
             running h' = running h
             /\ exists more, launched h' = launched h ++ more
         end
  end.
Proof.
  unfold loop_turn.
  pose proof (read_message_io s) as R.
  destruct (read_message order s) as [[[message|]|ex] s1];
    destruct R as (Hout & consumed & Hin & H4).
  - destruct (respond e h (json_loads message)) as [h' reply] eqn:Er.
    apply respond_keeps in Er as [Hr Hl].
    pose proof (write_frame_io (json_dumps true reply) s1) as W.
    destruct (write_frame order (json_dumps true reply) s1) as [[u|ex] s2].
    + destruct W as (Hin2 & f & Hout2 & _).
      split; [exists consumed; by rewrite Hin2|].
      split; [exists f; by rewrite Hout2, Hout|].
      split; [|done]. rewrite Hin2, Hin, length_app. lia.
    + subst s2. split; [eauto|]. split; [|done].
      exists []. by rewrite app_nil_r.
  - split; [eauto|]. split; [|done]. exists []. by rewrite app_nil_r.
  - split; [eauto|]. split; [exists []; by rewrite app_nil_r|].
    split; [done|]. exists []. by rewrite app_nil_r.
Qed.

Lemma loop_from_terminates fuel : forall clock k h s,
  (length (stdin s) < 4 * fuel)%nat ->
  exists h' s',
    loop_from order fuel clock k h s = Some (h', s')
    /\ running h' = false
    /\ (exists consumed, stdin s = consumed ++ stdin s')
    /\ (exists written, stdout s' = stdout s ++ written)
    /\ (exists more, launched h' = launched h ++ more).
Proof.
  induction fuel as [|fuel IH]; intros clock k h s Hf; [lia|].
  cbn [loop_from].
  assert (Nil : forall (A : Type) (l : list A), exists m, l = l ++ m)
    by (intros A l; exists []; by rewrite app_nil_r).
  destruct (running h).
  2:{ eexists _, _. split; [done|]. split; [done|].
      split; [exists []; done|]. split; apply Nil. }
  pose proof (loop_turn_io (clock k) h s) as T.
  destruct (loop_turn order (clock k) h s) as [[h1| |h1 ex] s1];
    destruct T as ((consumed & Hin) & (written & Hout) & T).
  - destruct T as (Hlen & Hr & more & Hl).
    destruct (IH clock (S k) h1 s1 ltac:(lia))
      as (h' & s' & -> & Hrun & (c2 & Hin2) & (w2 & Hout2) & (m2 & Hl2)).
    exists h', s'. split; [done|]. split; [done|].
    split; [exists (consumed ++ c2); by rewrite Hin, Hin2, app_assoc|].
    split; [exists (written ++ w2); by rewrite Hout2, Hout, app_assoc|].
    exists (more ++ m2). by rewrite Hl2, Hl, app_assoc.
  - eexists _, _. split; [done|]. split; [done|]. split; [eauto|].
    split; [eauto|]. apply Nil.
  - destruct T as (Hr & more & Hl).
    eexists _, _. split; [done|]. split; [done|]. split; [eauto|].
    split; [eauto|]. cbn. eauto.
Qed.

(** X4.  On an input of [n] octets the loop returns within [n / 4 + 1]
    turns.  When it returns, [running] is [False], what is left of the
    input is a suffix of it, the output is what it was followed by what
    the loop wrote, and the launches recorded before are still there. *)
Theorem loop_terminates fuel clock h s :
  (length (stdin s) < 4 * fuel)%nat ->
  exists h' s',
    run_native_messaging_loop order fuel clock h s = Some (h', s')
    /\ running h' = false
    /\ (exists consumed, stdin s = consumed ++ stdin s')
    /\ (exists written, stdout s' = stdout s ++ written)
    /\ (exists more, launched h' = launched h ++ more).
Proof.
  intros Hf. unfold run_native_messaging_loop.
  by apply (loop_from_terminates fuel clock 0
              {| server_thread := server_thread h; running := true;
                 launched := launched h |} s).
Qed.


(** ** The loop on well-formed input *)

Lemma frame_of_Some payload f :
  frame_of order payload = Some f ->
  exists prefix encoded,
    f = prefix ++ encoded
    /\ utf8_encode payload = Ok encoded
    /\ pack_I order (N.of_nat (length encoded)) = Ok prefix.
Proof.
  unfold frame_of, write_frame, bind, lift, stdout_write.
  destruct (utf8_encode payload) as [encoded|]; [|discriminate].
  destruct (pack_I order (N.of_nat (length encoded))) as [prefix|] eqn:Hp;
    [|discriminate].
  cbn. intros [= <-]. by exists prefix, encoded.
Qed.

Lemma write_frame_of payload f s :
  frame_of order payload = Some f ->
  write_frame order payload s
  = (Ok tt, {| stdin := stdin s; stdout := stdout s ++ f |}).
Proof.
  intros (prefix & encoded & -> & He & Hp)%frame_of_Some.
  unfold write_frame, bind, lift, stdout_write. rewrite He, Hp. cbn.
  by rewrite <- app_assoc.
Qed.

Lemma read_frame_of payload f rest out :
  frame_of order payload = Some f ->
  read_message order {| stdin := f ++ rest; stdout := out |}
  = (Ok (Some payload), {| stdin := rest; stdout := out |}).
Proof.
  intros (prefix & encoded & -> & He & Hp)%frame_of_Some.
  rewrite <- app_assoc.
  destruct (read_complete order prefix encoded rest out
              (pack_I_length _ _ _ Hp) (unpack_pack_I _ _ _ Hp)) as [-> _].
  by rewrite (utf8_encode_decode _ _ He).
Qed.

Lemma loop_from_serves clock messages : forall k h out input output,
  running h = true ->
  frames_of order messages = Some input ->
  frames_of order (snd (served clock k h messages)) = Some output ->
  loop_from order (S (length messages)) clock k h
    {| stdin := input; stdout := out |}
  = Some (shut_down (fst (served clock k h messages)),
          {| stdin := []; stdout := out ++ output |}).
Proof.
  induction messages as [|m ms IH]; intros k h out input output Hrun.
  - intros [= <-] [= <-]. cbn [loop_from length]. rewrite Hrun.
    unfold loop_turn, read_message, bind, ret, stdin_read, stream_read.
    cbn. by rewrite app_nil_r.
  - cbn [frames_of served].
    destruct (frame_of order m) as [f|] eqn:Ef; [|discriminate].
    destruct (frames_of order ms) as [fs|] eqn:Efs; [|discriminate].
    intros [= <-].
    destruct (respond (clock k) h (json_loads m)) as [h1 reply] eqn:Er.
    destruct (served clock (S k) h1 ms) as [h2 replies] eqn:Es.
    cbn [snd fst frames_of].
    destruct (frame_of order (json_dumps true reply)) as [rf|] eqn:Erf;
      [|discriminate].
    destruct (frames_of order replies) as [rfs|] eqn:Erfs; [|discriminate].
    intros [= <-].
    cbn [length]. change (loop_from order (S (S (length ms)))) with
      (fun clock k h s =>
         if running h then
           match loop_turn order (clock k) h s with
           | (Continue h', s') => loop_from order (S (length ms)) clock (S k) h' s'
           | (Break, s') => Some (shut_down h, s')
           | (Escaped h' _, s') => Some (shut_down h', s')
           end
         else Some (shut_down h, s)).
    cbv beta. rewrite Hrun. unfold loop_turn.
    rewrite (read_frame_of m f fs out Ef), Er.
    rewrite (write_frame_of _ rf {| stdin := fs; stdout := out |} Erf).
    cbn [stdin stdout].
    pose proof (respond_keeps _ _ _ _ _ Er) as [Hr _].
    rewrite (IH (S k) h1 (out ++ rf) fs rfs); [|congruence|done|by rewrite Es].
    by rewrite Es, app_assoc.
Qed.

(** X5.  When the input is a sequence of whole frames and every reply
    can be framed, the loop handles the messages in order, each in the
    host state that the one before left, writes the frames of the
    replies in the same order, reads the input to its end, and returns
    after one turn more than there are messages. *)
Theorem loop_serves_frames clock h messages input output out :
  frames_of order messages = Some input ->
  frames_of order (snd (served clock 0 (started h) messages)) = Some output ->
  run_native_messaging_loop order (S (length messages)) clock h
    {| stdin := input; stdout := out |}
  = Some (shut_down (fst (served clock 0 (started h) messages)),
          {| stdin := []; stdout := out ++ output |}).
Proof.
  intros Hi Ho. unfold run_native_messaging_loop.
  by apply (loop_from_serves clock messages 0 (started h)).
Qed.

(** ** The loop on input it gives up on *)

(** X6.  When the input ends within the length prefix or within the
    payload it declares, the loop ends in its first turn: the rest of the
    input is consumed, nothing is written, the thread of the host is
    left as it is, and [running] is [False]. *)
Theorem loop_stops_at_end_of_input fuel clock h s :
  (length (stdin s) < 4)%nat
  \/ ((4 <= length (stdin s))%nat
      /\ N.of_nat (length (stdin s) - 4) < declared_length order (stdin s)) ->
  run_native_messaging_loop order (S fuel) clock h s
  = Some ({| server_thread := server_thread h; running := false;
             launched := launched h |},
          {| stdin := []; stdout := stdout s |}).
Proof.
  intros H. unfold run_native_messaging_loop. cbn [loop_from running].
  unfold loop_turn.
  destruct H as [H|[H4 Hn]].
  - destruct (read_short_length order s H) as [_ ->]. reflexivity.
  - destruct (read_short_payload order s H4 Hn) as [_ ->]. reflexivity.
Qed.

(** X7.  A whole frame whose payload is not UTF-8 ends the loop: no
    reply is written and the frames behind it are never read. *)
Theorem loop_stops_at_undecodable_frame fuel clock h prefix payload rest out :
  length prefix = 4%nat ->
  unpack_I order prefix = N.of_nat (length payload) ->
  utf8_decode payload = Raise (UnicodeDecodeError payload) ->
  run_native_messaging_loop order (S fuel) clock h
    {| stdin := prefix ++ payload ++ rest; stdout := out |}
  = Some ({| server_thread := server_thread h; running := false;
             launched := launched h |},
          {| stdin := rest; stdout := out |}).
Proof.
  intros Hl Hu Hd. unfold run_native_messaging_loop. cbn [loop_from running].
  unfold loop_turn.
  destruct (read_complete order prefix payload rest out Hl Hu) as [-> _].
  by rewrite Hd.
Qed.

End LoopRuns.

(** Two frames, sixty-two octets. *)
Lemma loop_terminates_witness :
  exists h' s',
    @run_native_messaging_loop Sample.lib LittleEndian 20 Vectors.clock new_host
      {| stdin := Vectors.two_frames; stdout := [] |} = Some (h', s')
    /\ running h' = false
    /\ (exists consumed, Vectors.two_frames = consumed ++ stdin s')
    /\ (exists written, stdout s' = [] ++ written)
    /\ (exists more, launched h' = [] ++ more).
Proof.
  apply (@loop_terminates Sample.lib LittleEndian 20 Vectors.clock new_host
           {| stdin := Vectors.two_frames; stdout := [] |}).
  vm_compute. lia.
Defined.

(** [start_server] on port 9999, then [ping]. *)
Lemma loop_serves_frames_witness :
  @run_native_messaging_loop Sample.lib LittleEndian 3 Vectors.clock new_host
    {| stdin := Vectors.two_frames; stdout := [] |}
  = Some (shut_down
            (fst (@served Sample.lib Vectors.clock 0 (started new_host)
                    [Vectors.start_text; Vectors.ping_text])),
          {| stdin := []; stdout := [] ++ Vectors.two_replies |}).
Proof.
  apply (@loop_serves_frames Sample.lib LittleEndian Vectors.clock new_host
           [Vectors.start_text; Vectors.ping_text]
           Vectors.two_frames Vectors.two_replies []); reflexivity.
Defined.

(** Two octets of input. *)
Lemma loop_stops_at_end_of_input_witness :
  @run_native_messaging_loop Sample.lib LittleEndian 1 Vectors.clock Sample.serving
    {| stdin := [x02; x00]; stdout := [x07] |}
  = Some ({| server_thread := server_thread Sample.serving; running := false;
             launched := launched Sample.serving |},
          {| stdin := []; stdout := [x07] |}).
Proof.
  apply (@loop_stops_at_end_of_input Sample.lib LittleEndian 0 Vectors.clock
           Sample.serving {| stdin := [x02; x00]; stdout := [x07] |}).
  left. cbn. lia.
Defined.

(** The payload [ff] in front of a [ping] frame. *)
Lemma loop_stops_at_undecodable_frame_witness :
  @run_native_messaging_loop Sample.lib LittleEndian 5 Vectors.clock new_host
    {| stdin := [x01; x00; x00; x00] ++ [xff] ++ Sample.frame LittleEndian Vectors.ping_text;
       stdout := [] |}
  = Some ({| server_thread := None; running := false; launched := [] |},
          {| stdin := Sample.frame LittleEndian Vectors.ping_text; stdout := [] |}).
Proof.
  apply (@loop_stops_at_undecodable_frame Sample.lib LittleEndian 4 Vectors.clock
           new_host [x01; x00; x00; x00] [xff]
           (Sample.frame LittleEndian Vectors.ping_text) []); reflexivity.
Defined.

(** ** The bridge from HTTP to the peer

    [forward] is the [try] block of [do_POST] and [do_DELETE] with its
    handler for a request whose version is not [HTTP/0.9]; what it
    answers is what the client gets, status line and headers
    included. *)

Section Bridge.
Context {L : PyLib}.
Variable order : byteorder.

Lemma send_json_response_json code data z b :
  status_of code = Ok z ->
  utf8_encode (json_dumps false data) = Ok b ->
  send_json_response code data = Ok (json_response z b).
Proof. intros Hz Hb. unfold send_json_response. by rewrite Hb, Hz. Qed.

Lemma read_response_io s :
  match read_response order s with
  | (_, s') =>
      stdout s' = stdout s /\ exists consumed, stdin s = consumed ++ stdin s'
  end.
Proof.
  unfold read_response, bind, raise, lift, stdin_read, stream_read.
  cbv beta iota zeta. cbn [stdin stdout].
  destruct (length (take 4 (stdin s)) <? 4)%nat.
  { cbn [stdin stdout]. split; [done|]. exists (take 4 (stdin s)).
    by rewrite take_drop. }
  set (n := N.to_nat (unpack_I order (take 4 (stdin s)))).
  assert (E : stdin s = (take 4 (stdin s) ++ take n (drop 4 (stdin s)))
                        ++ drop n (drop 4 (stdin s)))
    by (by rewrite <- app_assoc, !take_drop).
  match goal with |- context [N.ltb ?a ?b] => destruct (N.ltb a b) end;
    cbn [stdin stdout]; (split; [done|]); eauto.
Qed.

(** What the [try] block of [send_to_extension] makes of a request that
    can be written. *)
Lemma exchange_written data request_frame s :
  frame_of order (json_dumps true data) = Some request_frame ->
  exchange order data s
  = match read_response order
            {| stdin := stdin s; stdout := stdout s ++ request_frame |} with
    | (Ok response, s') => (json_loads response, s')
    | (Raise ex, s') => (Raise ex, s')
    end.
Proof.
  intros Hf. unfold exchange, bind, lift.
  by rewrite (write_frame_of order _ _ s Hf).
Qed.

(** X8.  [send_to_extension] never raises.  It only appends to the
    output and only consumes a prefix of the input, and if it wrote
    nothing it read nothing. *)
Theorem send_to_extension_never_raises data s :
  exists v s',
    send_to_extension order data s = (Ok v, s')
    /\ (exists written, stdout s' = stdout s ++ written)
    /\ (exists consumed, stdin s = consumed ++ stdin s')
    /\ (stdout s' = stdout s -> s' = s).
Proof.
  rewrite send_to_extension_returns. unfold exchange, bind, lift.
  pose proof (write_frame_io order (json_dumps true data) s) as W.
  destruct (write_frame order (json_dumps true data) s) as [[u|ex] s1].
  2:{ subst s1. eexists _, _. split; [done|].
      split; [exists []; by rewrite app_nil_r|]. split; [by exists []|done]. }
  destruct W as (Hin & f & Hout & Hf).
  pose proof (read_response_io s1) as R.
  destruct (read_response order s1) as [[response|ex] s2];
    destruct R as (Hout2 & consumed & Hin2).
  - destruct (json_loads response); eexists _, _; (split; [done|]);
      (split; [exists f; by rewrite Hout2|]);
      (split; [exists consumed; by rewrite <- Hin|]);
      rewrite Hout2, Hout; intros E; apply (f_equal length) in E;
      rewrite length_app in E; lia.
  - eexists _, _. split; [done|]. split; [exists f; by rewrite Hout2|].
    split; [exists consumed; by rewrite <- Hin|].
    rewrite Hout2, Hout. intros E. apply (f_equal length) in E.
    rewrite length_app in E. lia.
Qed.

(** X9.  When the request can be framed and the input starts with a
    whole frame whose payload is JSON for an object, with a [status]
    (200 when absent) that [%d] can format and a [body] ([{}] when
    absent) whose text encodes, the handler answers with that status and
    the octets of that body, having written exactly the request frame and
    read exactly the response frame. *)
Theorem forward_relays_peer_response
    request_data request_frame prefix payload rest out text d z b :
  frame_of order (json_dumps true request_data) = Some request_frame ->
  length prefix = 4%nat ->
  unpack_I order prefix = N.of_nat (length payload) ->
  utf8_decode payload = Ok text ->
  json_loads text = Ok (JDict d) ->
  status_of (dict_get d (lit "status") (JInt 200)) = Ok z ->
  utf8_encode (json_dumps false (dict_get d (lit "body") (JDict []))) = Ok b ->
  forward order request_data {| stdin := prefix ++ payload ++ rest; stdout := out |}
  = (Ok (json_response z b),
     {| stdin := rest; stdout := out ++ request_frame |}).
Proof.
  intros Hf Hl Hu Hd Hj Hz Hb.
  rewrite forward_answers, (exchange_written _ _ _ Hf). cbn [stdin stdout].
  destruct (read_complete order prefix payload rest (out ++ request_frame) Hl Hu)
    as [_ ->].
  rewrite Hd, Hj. by rewrite (send_json_response_json _ _ z b Hz Hb).
Qed.

(** X10.  When the input ends within the length prefix or within the
    payload of the response, the handler answers 503 with the error
    "Extension communication error: " followed by "Failed to read
    response length from extension" or "Failed to read complete response
    from extension"; the request frame was written and the input is
    used up. *)
Theorem forward_peer_gone request_data request_frame s msg b :
  frame_of order (json_dumps true request_data) = Some request_frame ->
  ((length (stdin s) < 4)%nat
   /\ msg = lit "Failed to read response length from extension")
  \/ ((4 <= length (stdin s))%nat
      /\ N.of_nat (length (stdin s) - 4) < declared_length order (stdin s)
      /\ msg = lit "Failed to read complete response from extension") ->
  utf8_encode
    (json_dumps false
       (JDict [(lit "error",
                JStr (lit "Extension communication error: " ++ msg))]))
  = Ok b ->
  forward order request_data s
  = (Ok (json_response 503 b),
     {| stdin := []; stdout := stdout s ++ request_frame |}).
Proof.
  intros Hf Hs Hb.
  rewrite forward_answers, (exchange_written _ _ _ Hf).
  set (s1 := {| stdin := stdin s; stdout := stdout s ++ request_frame |}).
  destruct Hs as [[H ->]|(H4 & Hn & ->)].
  - destruct (read_short_length order s1 H) as [-> _].
    cbn [exn_str]. by rewrite (send_json_response_json (JInt 503) _ 503%Z b eq_refl Hb).
  - destruct (read_short_payload order s1 H4 Hn) as [-> _].
    cbn [exn_str]. by rewrite (send_json_response_json (JInt 503) _ 503%Z b eq_refl Hb).
Qed.

(** X11.  When the response frame is whole but its payload is not UTF-8,
    or is text that [json.loads] rejects, the handler answers 503 with
    "Extension communication error: " followed by the text of the
    exception. *)
Theorem forward_unreadable_response
    request_data request_frame prefix payload rest out ex b :
  frame_of order (json_dumps true request_data) = Some request_frame ->
  length prefix = 4%nat ->
  unpack_I order prefix = N.of_nat (length payload) ->
  utf8_decode payload = Raise ex
  \/ (exists text, utf8_decode payload = Ok text /\ json_loads text = Raise ex) ->
  utf8_encode
    (json_dumps false
       (JDict [(lit "error",
                JStr (lit "Extension communication error: " ++ exn_str ex))]))
  = Ok b ->
  forward order request_data {| stdin := prefix ++ payload ++ rest; stdout := out |}
  = (Ok (json_response 503 b),
     {| stdin := rest; stdout := out ++ request_frame |}).
Proof.
  intros Hf Hl Hu He Hb.
  rewrite forward_answers, (exchange_written _ _ _ Hf). cbn [stdin stdout].
  destruct (read_complete order prefix payload rest (out ++ request_frame) Hl Hu)
    as [_ ->].
  destruct He as [->|(text & -> & ->)];
    by rewrite (send_json_response_json (JInt 503) _ 503%Z b eq_refl Hb).
Qed.

(** X12.  When the response is JSON but no object, or an object whose
    [body] cannot be encoded or whose [status] cannot be formatted with
    [%d], the handler answers 500 with the text of the exception as
    [error]. *)
Theorem forward_unrelayable_response
    request_data request_frame prefix payload rest out text v ex b :
  frame_of order (json_dumps true request_data) = Some request_frame ->
  length prefix = 4%nat ->
  unpack_I order prefix = N.of_nat (length payload) ->
  utf8_decode payload = Ok text ->
  json_loads text = Ok v ->
  ((forall d, v <> JDict d) /\ ex = AttributeError v)
  \/ (exists d,
        v = JDict d
        /\ ((exists b',
               utf8_encode (json_dumps false (dict_get d (lit "body") (JDict [])))
               = Ok b'
               /\ status_of (dict_get d (lit "status") (JInt 200)) = Raise ex)
            \/ utf8_encode (json_dumps false (dict_get d (lit "body") (JDict [])))
               = Raise ex)) ->
  utf8_encode (json_dumps false (JDict [(lit "error", JStr (exn_str ex))]))
  = Ok b ->
  forward order request_data {| stdin := prefix ++ payload ++ rest; stdout := out |}
  = (Ok (json_response 500 b),
     {| stdin := rest; stdout := out ++ request_frame |}).
Proof.
  intros Hf Hl Hu Hd Hj Hv Hb.
  rewrite forward_answers, (exchange_written _ _ _ Hf). cbn [stdin stdout].
  destruct (read_complete order prefix payload rest (out ++ request_frame) Hl Hu)
    as [_ ->].
  rewrite Hd, Hj.
  destruct Hv as [[Hn ->]|(d & -> & [(b' & Hb' & Hs)|He])].
  - destruct v; try by rewrite (send_json_response_json (JInt 500) _ 500%Z b eq_refl Hb).
    by destruct (Hn d).
  - unfold send_json_response at 1. rewrite Hb', Hs.
    by rewrite (send_json_response_json (JInt 500) _ 500%Z b eq_refl Hb).
  - unfold send_json_response at 1. rewrite He.
    by rewrite (send_json_response_json (JInt 500) _ 500%Z b eq_refl Hb).
Qed.



(** X18.  A DELETE, and a POST once [read] has returned the octets of
    its body, of a version other than [HTTP/0.9] is answered as
    [forward] answers the envelope, the response going out with its
    head. *)
Theorem handlers_answer_as_forward req :
  request_version req <> lit "HTTP/0.9" ->
  (forall s,
     do_DELETE order req s
     = match forward order (delete_envelope req) s with
       | (Ok r, s') => (Ok (WithHead r), s')
       | (Raise ex, s') => (Raise ex, s')
       end)
  /\ (forall n post_data s,
        content_length req = Ok n ->
        rfile_read n req = Ok post_data ->
        do_POST order req s
        = match forward order (post_envelope req post_data) s with
          | (Ok r, s') => (Ok (WithHead r), s')
          | (Raise ex, s') => (Raise ex, s')
          end).
Proof.
  intros Hv. apply http09_false in Hv. split.
  - intros s. unfold do_DELETE. by apply forward_by_head.
  - intros n post_data s Hn Hr. rewrite (do_POST_read order _ _ _ _ Hn Hr).
    by apply forward_by_head.
Qed.

(** X19.  When the request version is [HTTP/0.9] and the peer answers
    with an object whose [body] ([{}] when absent) can be encoded, the
    client gets the octets of that body and nothing else, whatever the
    [status] of the object, be it one that [%d] cannot format. *)
Theorem old_version_gets_body_only
    req request_data request_frame prefix payload rest out text d b :
  request_version req = lit "HTTP/0.9" ->
  frame_of order (json_dumps true request_data) = Some request_frame ->
  length prefix = 4%nat ->
  unpack_I order prefix = N.of_nat (length payload) ->
  utf8_decode payload = Ok text ->
  json_loads text = Ok (JDict d) ->
  utf8_encode (json_dumps false (dict_get d (lit "body") (JDict []))) = Ok b ->
  forward_by order (send_json_response_to req) request_data
    {| stdin := prefix ++ payload ++ rest; stdout := out |}
  = (Ok (BodyOnly b), {| stdin := rest; stdout := out ++ request_frame |}).
Proof.
  intros Hv Hf Hl Hu Hd Hj Hb. apply http09_true in Hv.
  rewrite forward_by_unfold, send_to_extension_returns,
    (exchange_written _ _ _ Hf).
  cbn [stdin stdout].
  destruct (read_complete order prefix payload rest (out ++ request_frame) Hl Hu)
    as [_ ->].
  rewrite Hd, Hj. unfold relay_by. cbn [py_get].
  rewrite (send_json_response_to_body _ _ _ Hv). by rewrite Hb.
Qed.

End Bridge.

(** The peer answers a DELETE with status 204 and body [{}]. *)
Lemma forward_relays_peer_response_witness :
  @forward Sample.lib LittleEndian (delete_envelope Sample.delete_chat)
    {| stdin := [x1b; x00; x00; x00] ++ Vectors.octets Sample.peer_response ++ [x09];
       stdout := [] |}
  = (Ok (json_response 204 [x7b; x7d]),
     {| stdin := [x09]; stdout := [] ++ Vectors.delete_frame |}).
Proof.
  apply (@forward_relays_peer_response Sample.lib LittleEndian
           (delete_envelope Sample.delete_chat) Vectors.delete_frame
           [x1b; x00; x00; x00] (Vectors.octets Sample.peer_response) [x09] []
           (Sample.dumps Sample.peer_response)
           [(lit "status", JInt 204); (lit "body", JDict [])] 204 [x7b; x7d]);
    reflexivity.
Defined.

(** The peer has closed its end. *)
Lemma forward_peer_gone_witness :
  @forward Sample.lib LittleEndian (delete_envelope Sample.delete_chat)
    {| stdin := []; stdout := [] |}
  = (Ok (json_response 503
           (Vectors.octets
              (Vectors.communication_error_body
                 (lit "Failed to read response length from extension")))),
     {| stdin := []; stdout := [] ++ Vectors.delete_frame |}).
Proof.
  apply (@forward_peer_gone Sample.lib LittleEndian
           (delete_envelope Sample.delete_chat) Vectors.delete_frame
           {| stdin := []; stdout := [] |}
           (lit "Failed to read response length from extension")).
  - reflexivity.
  - left. split; [cbn; lia | reflexivity].
  - reflexivity.
Defined.

(** The response payload [ff]. *)
Lemma forward_unreadable_response_witness :
  @forward Sample.lib LittleEndian (delete_envelope Sample.delete_chat)
    {| stdin := [x01; x00; x00; x00] ++ [xff] ++ []; stdout := [] |}
  = (Ok (json_response 503
           (Vectors.octets (Vectors.communication_error_body (lit "error")))),
     {| stdin := []; stdout := [] ++ Vectors.delete_frame |}).
Proof.
  apply (@forward_unreadable_response Sample.lib LittleEndian
           (delete_envelope Sample.delete_chat) Vectors.delete_frame
           [x01; x00; x00; x00] [xff] [] [] (UnicodeDecodeError [xff])).
  - reflexivity.
  - reflexivity.
  - reflexivity.
  - left. reflexivity.
  - reflexivity.
Defined.

(** The peer answers with the list [[1, 2]]. *)
Lemma forward_unrelayable_response_witness :
  @forward Sample.lib LittleEndian (delete_envelope Sample.delete_chat)
    {| stdin := [x06; x00; x00; x00] ++ Vectors.octets (JList [JInt 1; JInt 2]) ++ [];
       stdout := [] |}
  = (Ok (json_response 500
           (Vectors.octets (JDict [(lit "error", JStr (lit "error"))]))),
     {| stdin := []; stdout := [] ++ Vectors.delete_frame |}).
Proof.
  apply (@forward_unrelayable_response Sample.lib LittleEndian
           (delete_envelope Sample.delete_chat) Vectors.delete_frame
           [x06; x00; x00; x00] (Vectors.octets (JList [JInt 1; JInt 2])) [] []
           (Sample.dumps (JList [JInt 1; JInt 2])) (JList [JInt 1; JInt 2])
           (AttributeError (JList [JInt 1; JInt 2]))).
  - reflexivity.
  - reflexivity.
  - reflexivity.
  - reflexivity.
  - reflexivity.
  - left. split; [intros d; discriminate | reflexivity].
  - reflexivity.
Defined.


(** [DELETE /v1/chat HTTP/1.1] and a POST of four octets, with no peer
    at the other end. *)
Lemma handlers_answer_as_forward_witness :
  @do_DELETE Sample.lib LittleEndian Sample.delete_chat Vectors.idle
  = match @forward Sample.lib LittleEndian
            (delete_envelope Sample.delete_chat) Vectors.idle with
    | (Ok r, s') => (Ok (WithHead r), s')
    | (Raise ex, s') => (Raise ex, s')
    end
  /\ @do_POST Sample.lib LittleEndian Sample.post_bad_body Vectors.idle
     = match @forward Sample.lib LittleEndian
               (post_envelope Sample.post_bad_body
                  (rfile Sample.post_bad_body)) Vectors.idle with
       | (Ok r, s') => (Ok (WithHead r), s')
       | (Raise ex, s') => (Raise ex, s')
       end.
Proof.
  split.
  - destruct (@handlers_answer_as_forward Sample.lib LittleEndian
                Sample.delete_chat) as [H _]; [discriminate|].
    apply H.
  - destruct (@handlers_answer_as_forward Sample.lib LittleEndian
                Sample.post_bad_body) as [_ H]; [discriminate|].
    apply (H 4%Z); reflexivity.
Defined.

(** [DELETE /v1/chat HTTP/0.9], answered by the peer with status 204
    and body [{}]. *)
Lemma old_version_gets_body_only_witness :
  @do_DELETE Sample.lib LittleEndian Vectors.delete_chat_09
    {| stdin := [x1b; x00; x00; x00] ++ Vectors.octets Sample.peer_response ++ [x09];
       stdout := [] |}
  = (Ok (BodyOnly [x7b; x7d]),
     {| stdin := [x09]; stdout := [] ++ Vectors.delete_frame |}).
Proof.
  unfold do_DELETE.
  apply (@old_version_gets_body_only Sample.lib LittleEndian
           Vectors.delete_chat_09 (delete_envelope Vectors.delete_chat_09)
           Vectors.delete_frame
           [x1b; x00; x00; x00] (Vectors.octets Sample.peer_response) [x09] []
           (Sample.dumps Sample.peer_response)
           [(lit "status", JInt 204); (lit "body", JDict [])] [x7b; x7d]);
    reflexivity.
Defined.

(** ** What the handlers look at *)

Section Rest.
Context {L : PyLib}.
Variable order : byteorder.

(** X3.  Whatever [json.loads] made of a message, the inner [try] of the
    loop ends with a reply: an object whose [type] is one of the four of
    [handle_message] or [error].  An [error] reply leaves the host as it
    was and is given only when [json.loads] raised or the value is no
    object. *)
Theorem respond_always_replies e h loaded :
  exists h' fields t,
    respond e h loaded = (h', JDict fields)
    /\ dict_get fields (lit "type") JNone = JStr t
    /\ In t all_reply_types
    /\ (t = lit "error" ->
        h' = h
        /\ match loaded with
           | Raise _ => True
           | Ok data => forall d, data <> JDict d
           end)
    /\ running h' = running h
    /\ exists more, launched h' = launched h ++ more /\ (length more <= 1)%nat.
Proof.
  assert (Err : forall detail,
    exists h' fields t,
      (h, JDict [(lit "type", JStr (lit "error")); (lit "error", detail)])
      = (h', JDict fields)
      /\ dict_get fields (lit "type") JNone = JStr t
      /\ In t all_reply_types
      /\ (t = lit "error" -> h' = h /\ True)
      /\ running h' = running h
      /\ exists more, launched h' = launched h ++ more /\ (length more <= 1)%nat).
  { intros detail. eexists h, _, (lit "error"). split; [reflexivity|].
    split; [reflexivity|]. split; [do 4 right; by left|].
    split; [done|]. split; [done|]. exists [].
    split; [by rewrite app_nil_r | cbn; lia]. }
  unfold respond. destruct loaded as [data|ex].
  - pose proof (handle_message_keeps e h data) as K.
    destruct (handle_message e h data) as [[h1 reply]|ex].
    + destruct K as ((d & fields & -> & -> & t & Ht & Hin) & Hr & Hl & _).
      exists h1, fields, t. split; [done|]. split; [done|].
      split; [apply in_or_app; by left|]. split; [|done].
      intros ->. exfalso.
      cbn in Hin. destruct Hin as [H|[H|[H|[H|[]]]]]; discriminate H.
    + destruct K as [Hn ->].
      destruct (Err (JStr (exn_str (AttributeError data))))
        as (h' & fields & t & E & Ht & Hin & He & Hrest).
      exists h', fields, t. split; [exact E|]. split; [done|]. split; [done|].
      split; [|done]. intros Et. split; [by apply He | done].
  - destruct ex; apply Err.
Qed.

(** X14.  A POST looks at no more of the body than Content-Length
    announces, and at all of it when the number is -1: two requests
    with the same path, version, headers and Content-Length whose
    bodies agree that far are handled alike.  When the number is below
    -1, or beyond what [read] can buffer, the exception of [read]
    leaves [do_POST] before the [try]: no response is sent and nothing
    is forwarded. *)
Theorem post_reads_content_length_octets req1 req2 n s :
  path req1 = path req2 ->
  headers req1 = headers req2 ->
  request_version req1 = request_version req2 ->
  content_length req1 = Ok n ->
  content_length req2 = Ok n ->
  (n = (-1)%Z -> rfile req1 = rfile req2) ->
  ((0 <= n)%Z ->
   take (Z.to_nat n) (rfile req1) = take (Z.to_nat n) (rfile req2)) ->
  do_POST order req1 s = do_POST order req2 s
  /\ ((n < -1)%Z \/ (2 ^ 63 - 1 <= n)%Z \/ (Z.of_N max_read < n)%Z ->
      exists ex, do_POST order req1 s = (Raise ex, s)).
Proof.
  intros Hp Hh Hv H1 H2 Hall Htake. unfold do_POST, bind, lift.
  rewrite H1, H2. unfold rfile_read.
  destruct (Z.eqb_spec n (-1)) as [E|E].
  { unfold post_envelope, headers_dict, send_json_response_to, http09.
    rewrite Hp, Hh, Hv, (Hall E). split; [done|]. lia. }
  destruct (Z.ltb_spec n (-1)) as [Hlt|Hge]; [split; eauto|].
  destruct (Z.leb_spec (2 ^ 63 - 1) n) as [Hbig|Hsmall]; [split; eauto|].
  destruct (Z.ltb_spec (Z.of_N max_read) n) as [Hmax|Hfits]; [split; eauto|].
  cbn [orb].
  unfold post_envelope, headers_dict, send_json_response_to, http09.
  rewrite Hp, Hh, Hv, Htake by lia. split; [done|]. lia.
Qed.

(** X15.  A DELETE looks neither at the body nor at Content-Length: two
    requests with the same path, headers and version are handled alike,
    even when [int] would reject their Content-Length. *)
Theorem delete_ignores_body req1 req2 s :
  path req1 = path req2 ->
  headers req1 = headers req2 ->
  request_version req1 = request_version req2 ->
  do_DELETE order req1 s = do_DELETE order req2 s.
Proof.
  intros Hp Hh Hv.
  unfold do_DELETE, delete_envelope, headers_dict, send_json_response_to, http09.
  by rewrite Hp, Hh, Hv.
Qed.

End Rest.

(** Two octets more after the four announced; and [Content-Length: -5]. *)
Lemma post_reads_content_length_octets_witness :
  @do_POST Sample.lib LittleEndian Sample.post_bad_body Vectors.idle
  = @do_POST Sample.lib LittleEndian Vectors.post_longer_body Vectors.idle
  /\ exists ex,
       @do_POST Sample.lib LittleEndian Vectors.post_negative_length
         Vectors.idle
       = (Raise ex, Vectors.idle).
Proof.
  split.
  - destruct (@post_reads_content_length_octets Sample.lib LittleEndian
                Sample.post_bad_body Vectors.post_longer_body 4%Z Vectors.idle
                eq_refl eq_refl eq_refl eq_refl eq_refl) as [H _].
    + discriminate.
    + intros _. reflexivity.
    + exact H.
  - destruct (@post_reads_content_length_octets Sample.lib LittleEndian
                Vectors.post_negative_length Vectors.post_negative_length
                (-5)%Z Vectors.idle
                eq_refl eq_refl eq_refl eq_refl eq_refl) as [_ H].
    + intros _. reflexivity.
    + intros _. reflexivity.
    + apply H. left. reflexivity.
Defined.

(** The version is looked at: with no peer at the other end,
    [DELETE /v1/chat HTTP/1.1] gets the 503 with its head and
    [DELETE /v1/chat HTTP/0.9] the octets of its body. *)
Lemma delete_looks_at_version :
  @do_DELETE Sample.lib LittleEndian Sample.delete_chat Vectors.idle
  = (Ok (WithHead
           (json_response 503
              (Vectors.octets
                 (Vectors.communication_error_body
                    (lit "Failed to read response length from extension"))))),
     {| stdin := []; stdout := Vectors.delete_frame |})
  /\ @do_DELETE Sample.lib LittleEndian Vectors.delete_chat_09 Vectors.idle
     = (Ok (BodyOnly
              (Vectors.octets
                 (Vectors.communication_error_body
                    (lit "Failed to read response length from extension")))),
        {| stdin := []; stdout := Vectors.delete_frame |}).
Proof. split; reflexivity. Qed.

(** [Content-Length: abc] with one octet after the headers, and with
    none. *)
Lemma delete_ignores_body_witness :
  @do_DELETE Sample.lib LittleEndian (Vectors.delete_with_body [x41])
    Vectors.idle
  = @do_DELETE Sample.lib LittleEndian (Vectors.delete_with_body [])
      Vectors.idle.
Proof.
  apply (@delete_ignores_body Sample.lib LittleEndian); reflexivity.
Defined.

(** ** The threads one at a time *)

(** The server thread takes its three steps from [Sample.two_readers]. *)
Lemma server_thread_alone_witness :
  exists r,
    handler_at (Sample.after [ServerThread; ServerThread; ServerThread])
    = HandlerReturned r
    /\ @send_to_extension Sample.lib LittleEndian
         (delete_envelope Sample.delete_chat) (streams Sample.two_readers)
       = (Ok r, streams (Sample.after [ServerThread; ServerThread; ServerThread]))
    /\ loop_at (Sample.after [ServerThread; ServerThread; ServerThread])
       = loop_at Sample.two_readers
    /\ the_host (Sample.after [ServerThread; ServerThread; ServerThread])
       = the_host Sample.two_readers.
Proof.
  apply (@server_thread_alone Sample.lib LittleEndian Sample.quiet
           Sample.two_readers (delete_envelope Sample.delete_chat)).
  reflexivity.
Defined.

(** The main thread takes its two steps from [Sample.two_readers]. *)
Lemma main_thread_alone_witness :
  handler_at (Sample.after [MainThread; MainThread])
  = handler_at Sample.two_readers
  /\ match @loop_turn Sample.lib LittleEndian Sample.quiet
             (the_host Sample.two_readers) (streams Sample.two_readers) with
     | (Continue h', s') =>
         loop_at (Sample.after [MainThread; MainThread]) = LoopReadLength
         /\ the_host (Sample.after [MainThread; MainThread]) = h'
         /\ streams (Sample.after [MainThread; MainThread]) = s'
     | (Break, s') =>
         loop_at (Sample.after [MainThread; MainThread]) = LoopExited
         /\ the_host (Sample.after [MainThread; MainThread])
            = the_host Sample.two_readers
         /\ streams (Sample.after [MainThread; MainThread]) = s'
     | (Escaped h' _, s') =>
         loop_at (Sample.after [MainThread; MainThread]) = LoopExited
         /\ the_host (Sample.after [MainThread; MainThread]) = h'
         /\ streams (Sample.after [MainThread; MainThread]) = s'
     end.
Proof.
  apply (@main_thread_alone Sample.lib LittleEndian Sample.quiet
           Sample.two_readers).
  reflexivity.
Defined.
